(** * The nexus structure-merge helpers of beamlime

    A shallow embedding of [beamlime/applications/_nexus_helpers.py]:
    the nexus tree of nested dicts, the path index
    ([iter_nexus_structure], [find_nexus_structure], [find_parent]),
    the ev44 matcher, initializer and merger, the bridge that merges a
    message into the data module store, and the combiner of the store
    with the structure.

    Conventions of the embedding.
    - A Python dict that stands for a nexus node is a [Node]; the keys the
      helpers read ("name", "children", "module", "config", "attributes")
      are its fields, an absent key is [None].
    - Every node dict carries its object identity [oid] (what Python's
      [is] compares).  Creating a dict draws a fresh identity from an
      allocation counter.
    - A numpy array carries its element type.  The arrays of a message
      are int64 arrays; [np.asarray([])], with which the initializer
      starts every field, is a float64 array.  Concatenating an int64
      array onto a float64 array converts its elements to float64, which
      rounds an integer of more than 53 significant bits; adding an
      integer to an int64 array wraps around at 64 bits.  The helpers
      only ever store integers, so an element of either type is
      written as the integer it equals.
    - Exceptions are values of [Exn]; a computation that mutates an object
      and may raise has type [Py St A]: the mutated object and the
      allocation counter survive a raise, as they do in Python. *)

From Stdlib Require Import ZArith.
From stdpp Require Import base option list strings gmap fin_maps.

Open Scope string_scope.
Open Scope list_scope.

(** ** Data model *)

(** The element type of a numpy array. *)
Inductive Dtype :=
| Float64
| Int64.

(** [config["values"]]: a numpy array, or anything else (a scalar or a
    string of the static template). *)
Inductive Values :=
| VArray (elem_type : Dtype) (elems : list Z)
| VScalar (text : string).

(** The dict under the "config" key. *)
Record Config := mkConfig {
  cfg_name : option string;
  dtype : option string;
  values : option Values;
  source : option string
}.

(** An entry of the "attributes" list. *)
Record Attribute := mkAttribute {
  attr_name : string;
  attr_dtype : string;
  attr_values : string
}.

(** A node of the nexus tree: a group, a dataset or a module place
    holder, all plain dicts in the source. *)
#[warnings="-register-all"]
Inductive Node := mkNode {
  oid : nat;
  name : option string;
  children : option (list Node);
  module : option string;
  config : option Config;
  attributes : option (list Attribute)
}.

(** [NexusPath = tuple[str | None, ...]] *)
Abbreviation NexusPath := (list (option string)).

(** [NexusGroupDictStore = dict[NexusPath, NexusGroupDict]] *)
Abbreviation NexusGroupDictStore := (gmap NexusPath Node).

(** A deserialized ev44 message, with the keys that the merger subscripts.
    "pixel_id" is optional: [None] stands for an absent key as well as for
    a null value.  The arrays are int64 arrays: every element lies
    between -2^63 and 2^63 - 1. *)
Record Ev44 := mkEv44 {
  source_name : string;
  reference_time : list Z;
  time_of_flight : list Z;
  reference_time_index : list Z;
  pixel_id : option (list Z)
}.

(** ** Exceptions and the computation monad *)

Inductive Exn :=
| KeyError
| ValueError (msg : string)
| NotImplementedError.

Inductive Outcome (A : Type) :=
| Ret (a : A)
| Raise (e : Exn).
Arguments Ret {A} a.
Arguments Raise {A} e.

(** A computation over a mutable object of type [St] and the allocation
    counter of object identities. *)
Definition Py (St A : Type) : Type := St -> nat -> Outcome A * St * nat.

Definition ret {St A} (a : A) : Py St A := fun s n => (Ret a, s, n).

Definition raise {St A} (e : Exn) : Py St A := fun s n => (Raise e, s, n).

Definition bind {St A B} (m : Py St A) (k : A -> Py St B) : Py St B :=
  fun s n =>
    match m s n with
    | (Ret a, s', n') => k a s' n'
    | (Raise e, s', n') => (Raise e, s', n')
    end.

Notation "x <- m ;; k" := (bind m (fun x => k))
  (at level 100, m at next level, right associativity).
Notation "m ;;; k" := (bind m (fun _ => k))
  (at level 100, right associativity).

(** The object the computation works on. *)
Definition self {St} : Py St St := fun s n => (Ret s, s, n).

(** In-place mutation of the object. *)
Definition mutate {St} (f : St -> St) : Py St unit := fun s n => (Ret tt, f s, n).

(** A fresh object identity. *)
Definition fresh {St} : Py St nat := fun s n => (Ret n, s, S n).

(** An expression that may raise but mutates nothing. *)
Definition eval {St A} (o : Outcome A) : Py St A := fun s n => (o, s, n).

(** [try: body except KeyError: handler].  The handler starts from the
    state the body left behind. *)
Definition try_except_KeyError {St A} (body handler : Py St A) : Py St A :=
  fun s n =>
    match body s n with
    | (Raise KeyError, s', n') => handler s' n'
    | r => r
    end.

(** [for x in xs: body(x)]; a raise leaves the loop. *)
Fixpoint for_each {St A} (xs : list A) (body : A -> Py St unit) : Py St unit :=
  match xs with
  | [] => ret tt
  | x :: rest => body x ;;; for_each rest body
  end.

(** Running a computation on the group stored under [path], that is on the
    object [data_module_store[path]]: the subscript raises [KeyError] when
    the key is absent, and whatever the computation did to the group stays
    in the store. *)
Definition on_entry {A} (path : NexusPath) (m : Py Node A)
  : Py NexusGroupDictStore A :=
  fun store n =>
    match store !! path with
    | None => (Raise KeyError, store, n)
    | Some group =>
        match m group n with
        | (r, group', n') => (r, <[path := group']> store, n')
        end
    end.

(** Pure outcomes. *)
Definition obind {A B} (o : Outcome A) (k : A -> Outcome B) : Outcome B :=
  match o with
  | Ret a => k a
  | Raise e => Raise e
  end.

Notation "x <-? o ;; k" := (obind o (fun x => k))
  (at level 100, o at next level, right associativity).

(** A subscript [d[key]] on a dict: [KeyError] when the key is absent. *)
Definition subscript {A} (field : option A) : Outcome A :=
  match field with
  | Some a => Ret a
  | None => Raise KeyError
  end.

(** Assignments to one key of a node dict; the object stays the same. *)
Definition with_children (n : Node) (cs : option (list Node)) : Node :=
  mkNode (oid n) (name n) cs (module n) (config n) (attributes n).

Definition with_config (n : Node) (c : option Config) : Node :=
  mkNode (oid n) (name n) (children n) (module n) c (attributes n).

(** [{**n}]: a new dict with the keys of [n]. *)
Definition shallow_copy (new_oid : nat) (n : Node) : Node :=
  mkNode new_oid (name n) (children n) (module n) (config n) (attributes n).

(** ** Datasets *)

Definition create_dataset {St} (name : string) (dtype : string)
    (initial_values : Values) (unit : option string) : Py St Node :=
  new_oid <- fresh ;;
  ret (mkNode new_oid None None (Some "dataset")
         (Some (mkConfig (Some name) (Some dtype) (Some initial_values) None))
         (Some match unit with
               | Some u => [mkAttribute "units" "string" u]
               | None => []
               end)).

Definition _get_array_values (dataset : Node) : Outcome Values :=
  c <-? subscript (config dataset) ;;
  subscript (values c).

Definition _set_values (dataset : Node) (new_values : Values) : Outcome Node :=
  c <-? subscript (config dataset) ;;
  Ret (with_config dataset
         (Some (mkConfig (cfg_name c) (dtype c) (Some new_values) (source c)))).

(** ** Arithmetic of numpy *)

(** The float64 nearest to the integer [z], ties to the even significand:
    [z] itself up to 2^53 in magnitude, a multiple of a power of two
    beyond.  (An int64 is far from the range where float64 overflows.) *)
Definition float64_of_int (z : Z) : Z :=
  let a := Z.abs z in
  if (a <? 2 ^ 53)%Z then z
  else
    let e := (Z.log2 a - 52)%Z in
    let q := (a / 2 ^ e)%Z in
    let r := (a mod 2 ^ e)%Z in
    let half := (2 ^ (e - 1))%Z in
    let q' :=
      if (r <? half)%Z then q
      else if (half <? r)%Z then (q + 1)%Z
      else if Z.even q then q else (q + 1)%Z in
    (Z.sgn z * (q' * 2 ^ e))%Z.

(** The int64 that a sum wraps around to. *)
Definition wrap_int64 (z : Z) : Z :=
  ((z + 2 ^ 63) mod 2 ^ 64 - 2 ^ 63)%Z.

(** [a.astype(elem_type)] for an int64 array [a]. *)
Definition astype (elem_type : Dtype) (a : list Z) : list Z :=
  match elem_type with
  | Float64 => float64_of_int <$> a
  | Int64 => a
  end.

(** [a + k] for an int64 array [a] and a length [k]: an int64 array. *)
Definition np_add (a : list Z) (k : nat) : list Z :=
  (fun i => wrap_int64 (i + Z.of_nat k)) <$> a.

(** [np.concatenate((a, b))] where [b] is an array of the message: the
    result has the element type of [a] (float64 absorbs int64), and the
    elements of [b] are converted to it. *)
Definition np_concatenate (a : Values) (b : list Z) : Outcome Values :=
  match a with
  | VArray elem_type elems =>
      Ret (VArray elem_type (elems ++ astype elem_type b))
  | VScalar _ =>
      Raise (ValueError "zero-dimensional arrays cannot be concatenated")
  end.

(** [np.asarray([])] *)
Definition np_asarray_empty : Values := VArray Float64 [].

(** [len(a)]; the merger asks for it after [np.concatenate] has accepted
    [a], so [a] is an array. *)
Definition np_len (a : Values) : nat :=
  match a with
  | VArray _ elems => length elems
  | VScalar text => String.length text
  end.

(** ** Names and paths *)

(** [sub in s] on strings. *)
Fixpoint starts_with (sub s : string) : bool :=
  match sub, s with
  | EmptyString, _ => true
  | String a sub', String b s' => bool_decide (a = b) && starts_with sub' s'
  | String _ _, EmptyString => false
  end.

Fixpoint contains (sub s : string) : bool :=
  starts_with sub s ||
  match s with
  | EmptyString => false
  | String _ s' => contains sub s'
  end.

Definition _node_name (n : Node) : option string :=
  match name n with
  | Some nm => Some nm
  | None =>
      match config n with
      | Some c => cfg_name c
      | None => None
      end
  end.

Fixpoint iter_nexus_structure (structure : Node) (root : option NexusPath)
  : list (NexusPath * Node) :=
  let path :=
    match root with
    | Some r => r ++ [_node_name structure]
    | None => []
    end in
  (path, structure) ::
  match children structure with
  | Some cs =>
      flat_map (fun child => iter_nexus_structure child (Some path)) cs
  | None => []
  end.

(** The first child the loop of [find_nexus_structure] stops at. *)
Definition first_named (head : option string) (cs : list Node) : option Node :=
  List.find (fun child => bool_decide (head = _node_name child)) cs.

Fixpoint find_nexus_structure (structure : Node) (path : NexusPath)
    {struct path} : Outcome Node :=
  match path with
  | [] => Ret structure
  | head :: tail =>
      cs <-? subscript (children structure) ;;
      match first_named head cs with
      | Some child => find_nexus_structure child tail
      | None => Raise KeyError
      end
  end.

Definition find_parent (structure : Node) (path : NexusPath) : Outcome Node :=
  find_nexus_structure structure (removelast path).

(** Writing through the reference that [find_nexus_structure] returned:
    the node reached by [path] becomes [new], everything else is kept.
    The walk is the one of [find_nexus_structure]. *)
Fixpoint write_nexus_structure (structure : Node) (path : NexusPath)
    (new : Node) {struct path} : Node :=
  match path with
  | [] => new
  | head :: tail =>
      match children structure with
      | None => structure
      | Some cs =>
          with_children structure
            (Some ((fix walk (cs : list Node) : list Node :=
                      match cs with
                      | [] => []
                      | child :: rest =>
                          if bool_decide (head = _node_name child)
                          then write_nexus_structure child tail new :: rest
                          else child :: walk rest
                      end) cs))
      end
  end.

Definition is_ev44_for (source_name : string) (node : Node) : bool :=
  bool_decide (module node = Some "ev44") &&
  bool_decide (match config node with
               | Some c => source c
               | None => None
               end = Some source_name).

(** The generator is run to its end here; the bridge consumes it while it
    writes to the store, but the traversal reads the structure only. *)
Definition find_ev44_matching_paths (structure : Node) (data_piece : Ev44)
  : list NexusPath :=
  fst <$> List.filter (fun pn => is_ev44_for (source_name data_piece) pn.2)
            (iter_nexus_structure structure None).

(** ** The ev44 initializer and merger *)

(** [children.append(d)] on the list that
    [group.setdefault("children", [])] returned. *)
Definition append_child (d : Node) : Py Node unit :=
  mutate (fun group =>
            with_children group (Some (default [] (children group) ++ [d]))).

Definition _initialize_ev44 : Py Node unit :=
  mutate (fun group =>
            with_children group (Some (default [] (children group)))) ;;;
  d <- create_dataset "event_time_zero" "int" np_asarray_empty (Some "ns") ;;
  append_child d ;;;
  d <- create_dataset "event_time_offset" "int" np_asarray_empty (Some "ns") ;;
  append_child d ;;;
  d <- create_dataset "event_index" "int" np_asarray_empty None ;;
  append_child d ;;;
  group <- self ;;
  group_name <- eval (subscript (name group)) ;;
  if contains "monitor" group_name then ret tt
  else
    d <- create_dataset "event_id" "int" np_asarray_empty None ;;
    append_child d.

(** [find_nexus_structure(group, path)] on the group being mutated. *)
Definition find_in_group (path : NexusPath) : Py Node Node :=
  group <- self ;;
  eval (find_nexus_structure group path).

(** [_set_values(dataset, values)] for the dataset found under [path]. *)
Definition set_values_in_group (path : NexusPath) (dataset : Node)
    (new_values : Values) : Py Node unit :=
  dataset' <- eval (_set_values dataset new_values) ;;
  mutate (fun group => write_nexus_structure group path dataset').

Definition _merge_ev44 (data_piece : Ev44) : Py Node unit :=
  event_time_zero_dataset <- find_in_group [Some "event_time_zero"] ;;
  original_event_time_zero <- eval (_get_array_values event_time_zero_dataset) ;;
  let new_event_time_zero := reference_time data_piece in
  merged <- eval (np_concatenate original_event_time_zero new_event_time_zero) ;;
  set_values_in_group [Some "event_time_zero"] event_time_zero_dataset merged ;;;
  event_time_offset_dataset <- find_in_group [Some "event_time_offset"] ;;
  original_event_time_offset <-
    eval (_get_array_values event_time_offset_dataset) ;;
  let new_event_time_offset := time_of_flight data_piece in
  merged <-
    eval (np_concatenate original_event_time_offset new_event_time_offset) ;;
  set_values_in_group [Some "event_time_offset"] event_time_offset_dataset
    merged ;;;
  event_index_dataset <- find_in_group [Some "event_index"] ;;
  original_event_index <- eval (_get_array_values event_index_dataset) ;;
  let event_index_offset := np_len original_event_time_offset in
  let new_event_index :=
    np_add (reference_time_index data_piece) event_index_offset in
  merged <- eval (np_concatenate original_event_index new_event_index) ;;
  set_values_in_group [Some "event_index"] event_index_dataset merged ;;;
  match pixel_id data_piece with
  | Some new_event_id =>
      event_id_dataset <- find_in_group [Some "event_id"] ;;
      original_event_id <- eval (_get_array_values event_id_dataset) ;;
      merged <- eval (np_concatenate original_event_id new_event_id) ;;
      set_values_in_group [Some "event_id"] event_id_dataset merged
  | None => ret tt
  end.

(** ** The bridge into the data module store *)

Definition multiple_modules : Exn :=
  ValueError "Multiple modules found in the same data group.".

(** The body of the [for path in ...] loop of
    [_merge_message_into_data_module_store]. *)
Definition merge_into_path (structure : Node) (data_piece : Ev44)
    (data_field_initialize_func : Py Node unit)
    (merge_func : Ev44 -> Py Node unit) (path : NexusPath)
  : Py NexusGroupDictStore unit :=
  try_except_KeyError
    (on_entry path (merge_func data_piece))
    (parent <- eval (find_parent structure path) ;;
     parent_children <- eval (subscript (children parent)) ;;
     if bool_decide (1 < length parent_children)
     then raise multiple_modules
     else
       new_oid <- fresh ;;
       mutate (insert path
                 (with_children (shallow_copy new_oid parent) (Some []))) ;;;
       on_entry path data_field_initialize_func ;;;
       on_entry path (merge_func data_piece)).

Definition _merge_message_into_data_module_store
    (structure : Node) (data_piece : Ev44)
    (path_matching_func : Node -> Ev44 -> list NexusPath)
    (data_field_initialize_func : Py Node unit)
    (merge_func : Ev44 -> Py Node unit)
  : Py NexusGroupDictStore unit :=
  for_each (path_matching_func structure data_piece)
    (merge_into_path structure data_piece
       data_field_initialize_func merge_func).

Definition merge_message_into_data_module_store
    (structure : Node) (kind : string) (data_piece : Ev44)
  : Py NexusGroupDictStore unit :=
  if bool_decide (kind = "ev44")
  then
    _merge_message_into_data_module_store structure data_piece
      find_ev44_matching_paths _initialize_ev44 _merge_ev44
  else raise NotImplementedError.

(** ** The combiner *)

(** The dict comprehension of [combine_data_module_store_and_structure]:
    the entries whose first path component is [child_name], that component
    stripped.  Unpacking [(head, *tail)] from an empty key raises. *)
Definition strip_head (child_name : option string)
    (data_module_store : NexusGroupDictStore) : Outcome NexusGroupDictStore :=
  foldr (fun (item : NexusPath * Node) rest =>
           match item.1 with
           | [] =>
               Raise (ValueError
                        "not enough values to unpack (expected at least 1, got 0)")
           | head :: tail =>
               sub <-? rest ;;
               Ret (if bool_decide (head = child_name)
                    then <[tail := item.2]> sub
                    else sub)
           end)
        (Ret ∅) (map_to_list data_module_store).

(** The combiner reads the store and the structure and mutates neither;
    it allocates the dicts it builds. *)
Fixpoint combine_data_module_store_and_structure
    (data_module_store : NexusGroupDictStore) (structure : Node)
  : Py unit Node :=
  if bool_decide (size data_module_store = 0) then ret structure
  else
    match data_module_store !! [None] with
    | Some group => ret group
    | None =>
        new_oid <- fresh ;;
        let new := shallow_copy new_oid structure in
        match children structure with
        | None => ret new
        | Some cs =>
            new_children <-
              (fix loop (cs : list Node) (acc : list Node)
                 : Py unit (list Node) :=
                 match cs with
                 | [] => ret acc
                 | child :: rest =>
                     sub <- eval (strip_head (_node_name child)
                                    data_module_store) ;;
                     combined <-
                       combine_data_module_store_and_structure sub child ;;
                     loop rest (acc ++ [combined])
                 end) cs [] ;;
            ret (with_children new (Some new_children))
        end
    end.

(** * Vocabulary of the statements *)

(** ** Trees and positions *)

(** No two siblings carry the same name, anywhere in the tree.  Names are
    what [_node_name] returns, so two nameless siblings share a name. *)
Fixpoint unique_sibling_names (n : Node) : Prop :=
  match children n with
  | Some cs =>
      NoDup (_node_name <$> cs) /\
      (fix all (cs : list Node) : Prop :=
         match cs with
         | [] => True
         | child :: rest => unique_sibling_names child /\ all rest
         end) cs
  | None => True
  end.

(** The node at a position, a position being the list of child indices
    from the root. *)
Fixpoint descend (tree : Node) (position : list nat) : option Node :=
  match position with
  | [] => Some tree
  | i :: rest =>
      match children tree with
      | Some cs =>
          match cs !! i with
          | Some child => descend child rest
          | None => None
          end
      | None => None
      end
  end.

(** The path of the node at a position: the names of the nodes passed on
    the way down, the root left out, as [iter_nexus_structure] builds it. *)
Fixpoint names_along (tree : Node) (position : list nat) : option NexusPath :=
  match position with
  | [] => Some []
  | i :: rest =>
      match children tree with
      | Some cs =>
          match cs !! i with
          | Some child => cons (_node_name child) <$> names_along child rest
          | None => None
          end
      | None => None
      end
  end.

(** ** Fields of a group *)

(** [sub] occurs in [s]. *)
Definition is_substring (sub s : string) : Prop :=
  exists pre post, s = pre +:+ sub +:+ post.

(** "monitor" occurs in the name of the group. *)
Definition is_monitor (group : Node) : bool :=
  match name group with
  | Some group_name => contains "monitor" group_name
  | None => false
  end.

(** The value array of the field dataset [field] of a group, as the merger
    reads it. *)
Definition field_values (field : string) (group : Node) : Outcome Values :=
  dataset <-? find_nexus_structure group [Some field] ;;
  _get_array_values dataset.

(** The dataset dict that [create_dataset] builds for an ev44 field: the
    "dtype" it declares is "int", its array is the float64 array that grew
    from [np.asarray([])]. *)
Definition ev44_dataset (new_oid : nat) (field : string)
    (unit : option string) (elems : list Z) : Node :=
  mkNode new_oid None None (Some "dataset")
    (Some (mkConfig (Some field) (Some "int") (Some (VArray Float64 elems))
             None))
    (Some match unit with
          | Some u => [mkAttribute "units" "string" u]
          | None => []
          end).

(** The list walk of [write_nexus_structure] for a path of length one. *)
Fixpoint replace_first (head : option string) (new : Node) (cs : list Node)
  : list Node :=
  match cs with
  | [] => []
  | child :: rest =>
      if bool_decide (head = _node_name child) then new :: rest
      else child :: replace_first head new rest
  end.

(** The group after [_set_values(find_nexus_structure(group, (field,)), v)]. *)
Definition set_field (field : string) (v : Values) (group : Node) : Node :=
  match find_nexus_structure group [Some field] with
  | Ret dataset =>
      match _set_values dataset v with
      | Ret dataset' => write_nexus_structure group [Some field] dataset'
      | Raise _ => group
      end
  | Raise _ => group
  end.

(** The array [a] after [np.concatenate((a, b))]. *)
Definition appended (a : Values) (b : list Z) : Values :=
  match np_concatenate a b with
  | Ret merged => merged
  | Raise _ => a
  end.

(** The group after the three unconditional appends of [_merge_ev44],
    given the arrays [zero], [offset] and [index] it held before. *)
Definition merged_fields (data_piece : Ev44) (zero offset index : Values)
    (group : Node) : Node :=
  set_field "event_index"
    (appended index
       (np_add (reference_time_index data_piece) (np_len offset)))
    (set_field "event_time_offset"
       (appended offset (time_of_flight data_piece))
       (set_field "event_time_zero"
          (appended zero (reference_time data_piece)) group)).


(** The fields of the group hold the arrays of the message and nothing
    else, as float64 arrays. *)
Definition holds_batch (data_piece : Ev44) (group : Node) : Prop :=
  field_values "event_time_zero" group =
    Ret (VArray Float64 (astype Float64 (reference_time data_piece))) /\
  field_values "event_time_offset" group =
    Ret (VArray Float64 (astype Float64 (time_of_flight data_piece))) /\
  field_values "event_index" group =
    Ret (VArray Float64
           (astype Float64 (np_add (reference_time_index data_piece) 0))) /\
  (is_monitor group = false ->
   field_values "event_id" group =
     Ret (VArray Float64
            (astype Float64 (default [] (pixel_id data_piece))))).

(** Integers that float64 holds exactly. *)
Definition float64_exact (a : list Z) : Prop :=
  Forall (fun z => (Z.abs z <= 2 ^ 53)%Z) a.

(** The elementwise sum of [a] and [k] in the integers. *)
Definition shifted (a : list Z) (k : nat) : list Z :=
  (fun i => (i + Z.of_nat k)%Z) <$> a.

(** ** Entries of the store *)

(** The entry that the store holds for a path after the first message for
    it has been merged: a new group with the keys of the template's
    [parent], whose children are the ev44 fields filled with the arrays of
    the message, converted to float64.  The identities are the ones drawn from the counter [n]. *)
Definition first_entry (parent : Node) (data_piece : Ev44) (n : nat) : Node :=
  mkNode n (name parent)
    (Some ([ev44_dataset (n + 1) "event_time_zero" (Some "ns")
              (astype Float64 (reference_time data_piece));
            ev44_dataset (n + 2) "event_time_offset" (Some "ns")
              (astype Float64 (time_of_flight data_piece));
            ev44_dataset (n + 3) "event_index" None
              (astype Float64 (np_add (reference_time_index data_piece) 0))] ++
           if is_monitor parent then []
           else [ev44_dataset (n + 4) "event_id" None
                   (astype Float64 (default [] (pixel_id data_piece)))]))
    (module parent) (config parent) (attributes parent).

(** The number of dicts that the first message for a path allocates. *)
Definition first_entry_size (parent : Node) : nat :=
  if is_monitor parent then 4 else 5.

(** The bridge for the ev44 module, one matched path. *)
Definition merge_ev44_into_path (structure : Node) (data_piece : Ev44)
    (path : NexusPath) : Py NexusGroupDictStore unit :=
  merge_into_path structure data_piece _initialize_ev44 _merge_ev44 path.

(** A matched path that the bridge can materialize and fill: its parent in
    the template is a named group with the place holder as only child, and
    a message with "pixel_id" does not go to a monitor. *)
Definition well_formed_target (structure : Node) (data_piece : Ev44)
    (path : NexusPath) : Prop :=
  exists parent siblings,
    find_parent structure path = Ret parent /\
    children parent = Some siblings /\
    length siblings <= 1 /\
    is_Some (name parent) /\
    (is_monitor parent = false \/ pixel_id data_piece = None).

(** The statement that a failing merge leaves the failing path as it was,
    for a message that matches a single path. *)
Definition merge_atomic_on_error : Prop :=
  forall (structure : Node) (data_piece : Ev44) (path : NexusPath)
         (store store' : NexusGroupDictStore) (n n' : nat) (e : Exn),
    find_ev44_matching_paths structure data_piece = [path] ->
    merge_message_into_data_module_store structure "ev44" data_piece store n =
      (Raise e, store', n') ->
    store' !! path = store !! path.

(** Every exception that [m] raises satisfies [P]. *)
Definition raises_within {St A} (P : Exn -> Prop) (m : Py St A) : Prop :=
  forall s n e s' n', m s n = (Raise e, s', n') -> P e.

(** The exceptions of the lookups and of numpy's concatenation. *)
Definition lookup_or_numpy_error (e : Exn) : Prop :=
  e = KeyError \/
  e = ValueError "zero-dimensional arrays cannot be concatenated".

(** The loop of the combiner over the children of a node. *)
Definition combine_children (data_module_store : NexusGroupDictStore)
  : list Node -> list Node -> Py unit (list Node) :=
  fix loop (cs : list Node) (acc : list Node) : Py unit (list Node) :=
    match cs with
    | [] => ret acc
    | child :: rest =>
        sub <- eval (strip_head (_node_name child) data_module_store) ;;
        combined <- combine_data_module_store_and_structure sub child ;;
        loop rest (acc ++ [combined])
    end.

(** ** Example data *)

Definition placeholder (new_oid : nat) (src : string) : Node :=
  mkNode new_oid None None (Some "ev44")
    (Some (mkConfig None None None (Some src))) None.

Definition detector_group : Node :=
  mkNode 2 (Some "detector_1") (Some [placeholder 3 "bankA"]) None None None.

Definition monitor_group : Node :=
  mkNode 4 (Some "monitor_1") (Some [placeholder 5 "monA"]) None None None.

(** A detector bank and a monitor, one place holder each. *)
Definition example_template : Node :=
  mkNode 1 (Some "entry") (Some [detector_group; monitor_group])
    None None None.


(** A bank with two place holders. *)
Definition crowded_template : Node :=
  mkNode 1 (Some "entry")
    (Some [mkNode 2 (Some "detector_1")
             (Some [placeholder 3 "bankA"; placeholder 4 "bankB"])
             None None None])
    None None None.

Definition detector_path : NexusPath := [Some "detector_1"; None].

Definition monitor_path : NexusPath := [Some "monitor_1"; None].

(** A group as the bridge inserts it, before it is initialized. *)
Definition new_monitor_group : Node :=
  mkNode 10 (Some "monitor_1") (Some []) None None None.

Definition batch_A : Ev44 :=
  mkEv44 "bankA" [100%Z] [5%Z; 6%Z] [0%Z] (Some [1%Z; 2%Z]).

Definition batch_B : Ev44 :=
  mkEv44 "bankA" [200%Z] [7%Z] [0%Z] (Some [3%Z]).

Definition batch_without_pixel_id : Ev44 :=
  mkEv44 "bankA" [300%Z] [8%Z; 9%Z] [0%Z] None.

Definition monitor_batch_A : Ev44 :=
  mkEv44 "monA" [100%Z] [5%Z; 6%Z] [0%Z] None.

Definition monitor_batch_B : Ev44 :=
  mkEv44 "monA" [200%Z] [7%Z] [0%Z] (Some [0%Z]).

Definition unmatched_batch : Ev44 :=
  mkEv44 "bankZ" [100%Z] [5%Z] [0%Z] None.

(** * Vocabulary of the further properties *)

(** Two datasets that differ in "values" of "config" at most. *)
Definition same_but_values (d d' : Node) : Prop :=
  oid d' = oid d /\ name d' = name d /\ children d' = children d /\
  module d' = module d /\ attributes d' = attributes d /\
  match config d, config d' with
  | Some c, Some c' =>
      cfg_name c' = cfg_name c /\ dtype c' = dtype c /\ source c' = source c
  | None, None => True
  | _, _ => False
  end.

(** Two states of one group dict with the same keys and the same children,
    the value arrays of the children apart. *)
Definition same_shape (group group' : Node) : Prop :=
  oid group' = oid group /\ name group' = name group /\
  module group' = module group /\ config group' = config group /\
  attributes group' = attributes group /\
  match children group, children group' with
  | Some cs, Some cs' => Forall2 same_but_values cs cs'
  | None, None => True
  | _, _ => False
  end.

(** An "event_index" array that points into an "event_time_offset" array:
    its entries lie between 0 and the length of the offsets, and they do
    not decrease. *)
Definition valid_event_index (offset index : list Z) : Prop :=
  (forall i a, index !! i = Some a -> (0 <= a <= Z.of_nat (length offset))%Z) /\
  (forall i j a b,
     i <= j -> index !! i = Some a -> index !! j = Some b -> (a <= b)%Z).

(** Two groups of one name, each with a place holder for the same source:
    the traversal yields one path twice. *)
Definition twin_template : Node :=
  mkNode 1 (Some "entry")
    (Some [detector_group;
           mkNode 6 (Some "detector_1") (Some [placeholder 7 "bankA"])
             None None None])
    None None None.

(** The message of the unpacking error in the combiner. *)
Definition unpack_error : Exn :=
  ValueError "not enough values to unpack (expected at least 1, got 0)".

(** A bank whose place holder carries a name in its "config". *)
Definition named_placeholder : Node :=
  mkNode 3 None None (Some "ev44")
    (Some (mkConfig (Some "events") None None (Some "bankA"))) None.

Definition named_placeholder_template : Node :=
  mkNode 1 (Some "entry")
    (Some [mkNode 2 (Some "detector_1") (Some [named_placeholder])
             None None None;
           monitor_group])
    None None None.

(** A group dict without the key "name". *)
Definition nameless_group : Node :=
  mkNode 10 None (Some []) None None None.

(** The entry of the detector bank after its first message. *)
Definition detector_entry : Node := first_entry detector_group batch_A 10.

(** The entry of the monitor after its first message. *)
Definition monitor_entry : Node := first_entry monitor_group monitor_batch_A 10.

(** The path of the place holder that carries a name. *)
Definition named_path : NexusPath := [Some "detector_1"; Some "events"].


(** The "dtype" that a field dataset declares and the array it holds. *)
Definition declared_and_held (field : string) (group : Node)
  : Outcome (option string * option Values) :=
  dataset <-? find_nexus_structure group [Some field] ;;
  c <-? subscript (config dataset) ;;
  Ret (dtype c, values c).




(** A batch with a time stamp in nanoseconds since the epoch and a time of
    flight just above 2^53. *)
Definition large_batch : Ev44 :=
  mkEv44 "bankA" [1730649600123456789%Z] [9007199254740993%Z] [0%Z] None.

(** A detector group as the bridge inserts it, before it is initialized. *)
Definition new_detector_group : Node :=
  mkNode 10 (Some "detector_1") (Some []) None None None.



(** * Properties *)

(** ** The path index *)

(** Induction on a nexus tree, the hypothesis available for every child. *)
Lemma Node_children_ind (P : Node -> Prop) :
  (forall n, (forall cs, children n = Some cs -> Forall P cs) -> P n) ->
  forall n, P n.
Proof.
  intros step. fix IH 1. intros [i nm cs m c a]. apply step. simpl.
  intros cs' Hcs. destruct cs as [l|]; [|discriminate].
  injection Hcs as <-.
  induction l as [|child rest IHrest]; constructor; [apply IH | exact IHrest].
Qed.

Lemma unique_sibling_names_children n cs :
  unique_sibling_names n -> children n = Some cs ->
  NoDup (_node_name <$> cs) /\ Forall unique_sibling_names cs.
Proof.
  destruct n as [i nm l m c a]; simpl. intros H [= ->].
  destruct H as [Hnd Hall]. split; [exact Hnd|].
  clear Hnd. induction cs as [|child rest IH]; constructor; tauto.
Qed.

Lemma iter_nexus_structure_unfold structure root :
  iter_nexus_structure structure root =
  let path := match root with
              | Some r => r ++ [_node_name structure]
              | None => []
              end in
  (path, structure) ::
  match children structure with
  | Some cs => flat_map (fun child => iter_nexus_structure child (Some path)) cs
  | None => []
  end.
Proof. destruct structure; reflexivity. Qed.

Lemma first_named_unique head cs child :
  NoDup (_node_name <$> cs) -> child ∈ cs -> _node_name child = head ->
  first_named head cs = Some child.
Proof.
  unfold first_named. induction cs as [|c rest IH]; intros Hnd Hin Hname.
  - inversion Hin.
  - simpl in *. apply NoDup_cons in Hnd as [Hnotin Hnd].
    apply elem_of_cons in Hin as [->|Hin].
    + rewrite bool_decide_eq_true_2; [reflexivity|congruence].
    + rewrite bool_decide_eq_false_2; [auto|].
      intros Heq. apply Hnotin. rewrite <- Heq, <- Hname.
      apply list_elem_of_fmap. eauto.
Qed.

(** A pair that the traversal of [child] yields below the path [r] has a
    path that extends [r] by the child's name and a walk down from it, and
    that walk finds the node. *)
Lemma iter_below_find child :
  unique_sibling_names child ->
  forall r p n,
    (p, n) ∈ iter_nexus_structure child (Some r) ->
    exists q, p = r ++ _node_name child :: q /\
              find_nexus_structure child q = Ret n.
Proof.
  induction child as [child IH] using Node_children_ind.
  intros Huniq r p n Hin.
  rewrite iter_nexus_structure_unfold in Hin. simpl in Hin.
  apply elem_of_cons in Hin as [Heq|Hin].
  - injection Heq as -> ->. exists []. split; [reflexivity|].
    reflexivity.
  - destruct (children child) as [cs|] eqn:Hcs; [|inversion Hin].
    destruct (unique_sibling_names_children _ _ Huniq Hcs) as [Hnd Hall].
    specialize (IH cs eq_refl).
    apply list_elem_of_In, in_flat_map in Hin as (c & Hc & Hin).
    apply list_elem_of_In in Hc, Hin.
    rewrite Forall_forall in IH, Hall.
    destruct (IH c Hc (Hall c Hc) _ _ _ Hin) as (q & -> & Hfind).
    exists (_node_name c :: q). split.
    + rewrite <- app_assoc. reflexivity.
    + simpl. rewrite Hcs. simpl.
      rewrite (first_named_unique _ _ c Hnd Hc eq_refl). exact Hfind.
Qed.

(** C10. In a tree where no two siblings share a name, every (path, node)
    pair of the depth-first traversal [iter_nexus_structure] is found
    again: [find_nexus_structure] on that path returns without raising,
    and returns that very node.  The empty path returns the root. *)
Theorem iter_find_roundtrip (tree : Node) :
  unique_sibling_names tree ->
  (forall path node,
     (path, node) ∈ iter_nexus_structure tree None ->
     find_nexus_structure tree path = Ret node) /\
  find_nexus_structure tree [] = Ret tree.
Proof.
  intros Huniq. split; [|reflexivity].
  intros path node Hin.
  rewrite iter_nexus_structure_unfold in Hin. simpl in Hin.
  apply elem_of_cons in Hin as [Heq|Hin].
  - injection Heq as -> ->. reflexivity.
  - destruct (children tree) as [cs|] eqn:Hcs; [|inversion Hin].
    destruct (unique_sibling_names_children _ _ Huniq Hcs) as [Hnd Hall].
    apply list_elem_of_In, in_flat_map in Hin as (c & Hc & Hin).
    apply list_elem_of_In in Hc, Hin.
    rewrite Forall_forall in Hall.
    destruct (iter_below_find c (Hall c Hc) _ _ _ Hin) as (q & -> & Hfind).
    simpl. rewrite Hcs. simpl.
    rewrite (first_named_unique _ _ c Hnd Hc eq_refl). exact Hfind.
Qed.

(** ** Reading and writing the fields of a group *)

Lemma find_single g head :
  find_nexus_structure g [head] =
  (cs <-? subscript (children g) ;;
   match first_named head cs with
   | Some child => Ret child
   | None => Raise KeyError
   end).
Proof.
  simpl. destruct (children g) as [cs|]; simpl; [|reflexivity].
  destruct (first_named head cs); reflexivity.
Qed.

Lemma write_single g head new :
  write_nexus_structure g [head] new =
  match children g with
  | None => g
  | Some cs => with_children g (Some (replace_first head new cs))
  end.
Proof.
  simpl. destruct (children g) as [cs|]; [|reflexivity].
  f_equal. f_equal. induction cs as [|child rest IH]; simpl; [reflexivity|].
  destruct (bool_decide (head = _node_name child)); [reflexivity|].
  f_equal. exact IH.
Qed.

Lemma first_named_Some head cs child :
  first_named head cs = Some child -> _node_name child = head.
Proof.
  unfold first_named. intros H. apply find_some in H as [_ H].
  apply bool_decide_eq_true in H. congruence.
Qed.

Lemma first_named_replace_same head new cs child :
  first_named head cs = Some child -> _node_name new = head ->
  first_named head (replace_first head new cs) = Some new.
Proof.
  unfold first_named. intros Hfound Hname.
  induction cs as [|c rest IH]; simpl in *; [discriminate|].
  destruct (bool_decide (head = _node_name c)) eqn:Hc; simpl.
  - rewrite bool_decide_eq_true_2; [reflexivity|congruence].
  - rewrite Hc. auto.
Qed.

Lemma first_named_replace_other head head' new cs :
  head' <> head -> _node_name new = head ->
  first_named head' (replace_first head new cs) = first_named head' cs.
Proof.
  unfold first_named. intros Hne Hname.
  induction cs as [|c rest IH]; simpl; [reflexivity|].
  destruct (bool_decide (head = _node_name c)) eqn:Hc; simpl.
  - apply bool_decide_eq_true in Hc.
    rewrite !bool_decide_eq_false_2; [reflexivity|congruence..].
  - rewrite IH. reflexivity.
Qed.

Lemma set_values_name dataset v dataset' :
  _set_values dataset v = Ret dataset' ->
  _node_name dataset' = _node_name dataset /\
  _get_array_values dataset' = Ret v.
Proof.
  unfold _set_values, _get_array_values, _node_name.
  destruct dataset as [i nm cs m [c|] a]; simpl; [|discriminate].
  intros [= <-]. simpl. destruct nm; auto.
Qed.

Lemma set_values_defined dataset v0 v :
  _get_array_values dataset = Ret v0 ->
  exists dataset', _set_values dataset v = Ret dataset'.
Proof.
  unfold _set_values, _get_array_values.
  destruct (config dataset); simpl; [eauto|discriminate].
Qed.

Lemma field_values_set_field field v0 v group :
  field_values field group = Ret v0 ->
  field_values field (set_field field v group) = Ret v.
Proof.
  unfold field_values, set_field. rewrite find_single.
  destruct (children group) as [cs|] eqn:Hcs; cbn [obind subscript];
    [|discriminate].
  destruct (first_named (Some field) cs) as [d|] eqn:Hd; [|discriminate].
  intros Hv. destruct (set_values_defined d v0 v Hv) as [d' Hd'].
  rewrite Hd'. destruct (set_values_name _ _ _ Hd') as [Hname Hget].
  rewrite write_single, Hcs, find_single. cbn [with_children children obind subscript].
  rewrite (first_named_replace_same _ _ _ d Hd); [exact Hget|].
  rewrite Hname. eapply first_named_Some; eauto.
Qed.

Lemma find_set_field_other field field' v group :
  field' <> field ->
  find_nexus_structure (set_field field v group) [Some field'] =
  find_nexus_structure group [Some field'].
Proof.
  intros Hne. unfold set_field. rewrite (find_single group (Some field)).
  destruct (children group) as [cs|] eqn:Hcs; cbn [obind subscript];
    [|reflexivity].
  destruct (first_named (Some field) cs) as [d|] eqn:Hd; [|reflexivity].
  destruct (_set_values d v) as [d'|] eqn:Hd'; [|reflexivity].
  destruct (set_values_name _ _ _ Hd') as [Hname _].
  rewrite write_single, Hcs, !find_single, Hcs.
  cbn [with_children children obind subscript].
  rewrite first_named_replace_other; [reflexivity|congruence|].
  rewrite Hname. eapply first_named_Some; eauto.
Qed.

Lemma field_values_set_field_other field field' v group :
  field' <> field ->
  field_values field' (set_field field v group) = field_values field' group.
Proof.
  intros Hne. unfold field_values. rewrite find_set_field_other; auto.
Qed.

(** One "read the field, concatenate, write it back" step of the merger. *)
Lemma append_to_field_run field t orig new group n {A} (k : Values -> Py Node A) :
  field_values field group = Ret (VArray t orig) ->
  (dataset <- find_in_group [Some field] ;;
   original <- eval (_get_array_values dataset) ;;
   merged <- eval (np_concatenate original new) ;;
   set_values_in_group [Some field] dataset merged ;;;
   k original) group n =
  k (VArray t orig)
    (set_field field (VArray t (orig ++ astype t new)) group) n.
Proof.
  unfold field_values, set_field. intros H.
  cbv [bind find_in_group self eval set_values_in_group mutate].
  destruct (find_nexus_structure group [Some field]) as [d|]; simpl in *;
    [|discriminate].
  rewrite H. simpl.
  destruct (set_values_defined d _ (VArray t (orig ++ astype t new)) H)
    as [d' ->].
  reflexivity.
Qed.

(** ** The initializer *)

Lemma starts_with_spec sub s :
  starts_with sub s = true <-> exists post, s = sub +:+ post.
Proof.
  revert s. induction sub as [|a sub IH]; intros s; simpl.
  - split; [eauto|reflexivity].
  - destruct s as [|b s]; simpl.
    + split; [discriminate|]. intros [post H]. discriminate.
    + rewrite andb_true_iff, bool_decide_eq_true, IH. split.
      * intros [-> [post ->]]. eauto.
      * intros [post [= -> ->]]. eauto.
Qed.

Lemma contains_spec sub s :
  contains sub s = true <-> is_substring sub s.
Proof.
  unfold is_substring. induction s as [|b s IH]; simpl.
  - rewrite orb_false_r, starts_with_spec. split.
    + intros [post H]. exists "", post. exact H.
    + intros (pre & post & H). destruct pre; [eauto|discriminate].
  - rewrite orb_true_iff, starts_with_spec, IH. split.
    + intros [[post H]|(pre & post & H)].
      * exists "", post. exact H.
      * exists (String b pre), post. simpl. rewrite H. reflexivity.
    + intros (pre & post & H). destruct pre as [|c pre]; simpl in H.
      * left. eauto.
      * right. injection H as -> ->. eauto.
Qed.

Lemma initialize_ev44_run (group : Node) (group_name : string) (n : nat) :
  name group = Some group_name ->
  _initialize_ev44 group n =
  (Ret tt,
   with_children group
     (Some (default [] (children group) ++
            [ev44_dataset n "event_time_zero" (Some "ns") [];
             ev44_dataset (S n) "event_time_offset" (Some "ns") [];
             ev44_dataset (S (S n)) "event_index" None []] ++
            if contains "monitor" group_name then []
            else [ev44_dataset (S (S (S n))) "event_id" None []])),
   if contains "monitor" group_name then S (S (S n)) else S (S (S (S n)))).
Proof.
  intros Hname. destruct group as [i nm cs m c a]. simpl in Hname. subst nm.
  cbv [_initialize_ev44 bind mutate create_dataset append_child fresh ret
         self eval with_children subscript]; simpl.
  destruct (contains "monitor" group_name); simpl;
    rewrite <- !app_assoc; reflexivity.
Qed.

(** X27. Initializing a group that has a name appends to its children, in
    this order, the empty datasets "event_time_zero" (unit "ns"),
    "event_time_offset" (unit "ns") and "event_index" (no unit), and then
    "event_id" (no unit): "event_id" is left out exactly when "monitor"
    occurs in the group's name.  Each dataset declares the "dtype" "int"
    and holds an empty float64 array; the children that the group had are
    kept in front, and one dict is allocated per dataset. *)
Theorem initialize_ev44_field_set (group : Node) (group_name : string)
    (n : nat) :
  name group = Some group_name ->
  exists event_id_field,
    _initialize_ev44 group n =
    (Ret tt,
     with_children group
       (Some (default [] (children group) ++
              [ev44_dataset n "event_time_zero" (Some "ns") [];
               ev44_dataset (n + 1) "event_time_offset" (Some "ns") [];
               ev44_dataset (n + 2) "event_index" None []] ++
              event_id_field)),
     n + 3 + length event_id_field) /\
    (is_substring "monitor" group_name -> event_id_field = []) /\
    (~ is_substring "monitor" group_name ->
     event_id_field = [ev44_dataset (n + 3) "event_id" None []]).
Proof.
  intros Hname. rewrite (initialize_ev44_run _ _ _ Hname).
  replace (n + 1) with (S n) by lia. replace (n + 2) with (S (S n)) by lia.
  replace (n + 3) with (S (S (S n))) by lia.
  destruct (contains "monitor" group_name) eqn:Hmon.
  - exists []. split; [f_equal; simpl; lia|]. split; [reflexivity|].
    intros Hno. exfalso. apply Hno, contains_spec, Hmon.
  - exists [ev44_dataset (S (S (S n))) "event_id" None []].
    split; [f_equal; simpl; lia|]. split; [|reflexivity].
    intros Hyes. apply contains_spec in Hyes. congruence.
Qed.

(** ** The merger *)

Lemma append_to_field_last field t orig new group n :
  field_values field group = Ret (VArray t orig) ->
  (dataset <- find_in_group [Some field] ;;
   original <- eval (_get_array_values dataset) ;;
   merged <- eval (np_concatenate original new) ;;
   set_values_in_group [Some field] dataset merged) group n =
  (Ret tt, set_field field (VArray t (orig ++ astype t new)) group, n).
Proof.
  unfold field_values, set_field. intros H.
  cbv [bind find_in_group self eval set_values_in_group mutate].
  destruct (find_nexus_structure group [Some field]) as [d|]; simpl in *;
    [|discriminate].
  rewrite H. simpl.
  destruct (set_values_defined d _ (VArray t (orig ++ astype t new)) H)
    as [d' ->].
  reflexivity.
Qed.

(** What [_merge_ev44] does to a group that holds the three unconditional
    fields: they are appended to, and then the optional "pixel_id" decides
    about "event_id". *)
Lemma merge_ev44_run data_piece group n tz zero to offset ti index :
  field_values "event_time_zero" group = Ret (VArray tz zero) ->
  field_values "event_time_offset" group = Ret (VArray to offset) ->
  field_values "event_index" group = Ret (VArray ti index) ->
  _merge_ev44 data_piece group n =
  let group' :=
    merged_fields data_piece (VArray tz zero) (VArray to offset)
      (VArray ti index) group in
  match pixel_id data_piece with
  | None => (Ret tt, group', n)
  | Some new_event_id =>
      match field_values "event_id" group with
      | Ret (VArray td ids) =>
          (Ret tt,
           set_field "event_id" (VArray td (ids ++ astype td new_event_id))
             group', n)
      | Ret (VScalar _) =>
          (Raise (ValueError "zero-dimensional arrays cannot be concatenated"),
           group', n)
      | Raise e => (Raise e, group', n)
      end
  end.
Proof.
  intros Hz Ho Hi. unfold _merge_ev44. cbv zeta.
  etransitivity; [apply append_to_field_run; exact Hz|].
  etransitivity;
    [apply append_to_field_run;
     rewrite field_values_set_field_other by discriminate; exact Ho|].
  etransitivity;
    [apply append_to_field_run;
     rewrite !field_values_set_field_other by discriminate; exact Hi|].
  change (set_field "event_index" _ _)
    with (merged_fields data_piece (VArray tz zero) (VArray to offset)
            (VArray ti index) group).
  destruct (pixel_id data_piece) as [px|]; [|reflexivity].
  assert (Hid : field_values "event_id"
                  (merged_fields data_piece (VArray tz zero)
                     (VArray to offset) (VArray ti index) group) =
                field_values "event_id" group).
  { unfold merged_fields.
    rewrite !field_values_set_field_other by discriminate. reflexivity. }
  destruct (field_values "event_id" group) as [[td ids|t]|e] eqn:Hids.
  - apply append_to_field_last. exact Hid.
  - revert Hid. unfold field_values.
    cbv [bind find_in_group self eval].
    destruct (find_nexus_structure _ [Some "event_id"]) as [d|]; simpl;
      [|discriminate].
    intros ->. reflexivity.
  - revert Hid. unfold field_values.
    cbv [bind find_in_group self eval].
    destruct (find_nexus_structure _ [Some "event_id"]) as [d|]; simpl.
    + intros ->. reflexivity.
    + intros [= ->]. reflexivity.
Qed.

Lemma merged_fields_values data_piece tz zero to offset ti index group :
  field_values "event_time_zero" group = Ret (VArray tz zero) ->
  field_values "event_time_offset" group = Ret (VArray to offset) ->
  field_values "event_index" group = Ret (VArray ti index) ->
  let group' :=
    merged_fields data_piece (VArray tz zero) (VArray to offset)
      (VArray ti index) group in
  field_values "event_time_zero" group' =
    Ret (VArray tz (zero ++ astype tz (reference_time data_piece))) /\
  field_values "event_time_offset" group' =
    Ret (VArray to (offset ++ astype to (time_of_flight data_piece))) /\
  field_values "event_index" group' =
    Ret (VArray ti
           (index ++
            astype ti (np_add (reference_time_index data_piece)
                         (length offset)))) /\
  field_values "event_id" group' = field_values "event_id" group.
Proof.
  intros Hz Ho Hi. unfold merged_fields. repeat split.
  - rewrite !field_values_set_field_other by discriminate.
    eapply field_values_set_field, Hz.
  - rewrite field_values_set_field_other by discriminate.
    eapply field_values_set_field.
    rewrite field_values_set_field_other by discriminate. exact Ho.
  - eapply field_values_set_field.
    rewrite !field_values_set_field_other by discriminate. exact Hi.
  - rewrite !field_values_set_field_other by discriminate. reflexivity.
Qed.

Lemma length_astype (t : Dtype) (a : list Z) : length (astype t a) = length a.
Proof. destruct t; simpl; [apply length_fmap|reflexivity]. Qed.

Lemma length_np_add (a : list Z) (k : nat) : length (np_add a k) = length a.
Proof. apply length_fmap. Qed.

(** C7. A message without "pixel_id" (absent or null), merged into a group
    that holds the ev44 fields, leaves the "event_id" dataset as it was, so
    its length is unchanged (and a monitor group still has none), while
    "event_time_offset" grows by the batch's [time_of_flight] and
    "event_index" by the batch's [reference_time_index]. *)
Theorem merge_without_pixel_id (group : Node) (data_piece : Ev44) (n : nat)
    (tz to ti : Dtype) (zero offset index : list Z) :
  pixel_id data_piece = None ->
  field_values "event_time_zero" group = Ret (VArray tz zero) ->
  field_values "event_time_offset" group = Ret (VArray to offset) ->
  field_values "event_index" group = Ret (VArray ti index) ->
  exists group' offset' index',
    _merge_ev44 data_piece group n = (Ret tt, group', n) /\
    field_values "event_id" group' = field_values "event_id" group /\
    field_values "event_time_offset" group' = Ret (VArray to offset') /\
    offset' = offset ++ astype to (time_of_flight data_piece) /\
    length offset' = length offset + length (time_of_flight data_piece) /\
    field_values "event_index" group' = Ret (VArray ti index') /\
    length index' = length index + length (reference_time_index data_piece).
Proof.
  intros Hpx Hz Ho Hi.
  destruct (merged_fields_values data_piece _ _ _ _ _ _ _ Hz Ho Hi)
    as (_ & Ho' & Hi' & Hid).
  eexists _, _, _. split.
  { rewrite (merge_ev44_run _ _ _ _ _ _ _ _ _ Hz Ho Hi), Hpx. reflexivity. }
  split; [exact Hid|]. split; [exact Ho'|]. split; [reflexivity|].
  split; [rewrite length_app, length_astype; reflexivity|].
  split; [exact Hi'|].
  rewrite length_app, length_astype, length_np_add. reflexivity.
Qed.

(** ** The bridge *)

(** Equality of the three components of a run. *)
Ltac triple_eq := apply (f_equal2 pair); [apply (f_equal2 pair)|].



(** The first message for a path below a well-formed parent. *)
Lemma merge_into_path_first (structure : Node) (data_piece : Ev44)
    (path : NexusPath) (store : NexusGroupDictStore) (n : nat)
    (parent : Node) (siblings : list Node) :
  store !! path = None ->
  find_parent structure path = Ret parent ->
  children parent = Some siblings ->
  length siblings <= 1 ->
  is_Some (name parent) ->
  is_monitor parent = false \/ pixel_id data_piece = None ->
  merge_ev44_into_path structure data_piece path store n =
  (Ret tt, <[path := first_entry parent data_piece n]> store,
   n + first_entry_size parent).
Proof.
  intros Hs Hp Hcs Hlen [nm Hnm] Hpx.
  cbv [merge_ev44_into_path merge_into_path try_except_KeyError].
  unfold on_entry at 1. rewrite Hs.
  cbv [bind eval raise fresh mutate].
  rewrite Hp, Hcs. cbn [subscript].
  rewrite bool_decide_eq_false_2 by lia.
  unfold on_entry at 1. rewrite lookup_insert_eq.
  rewrite (initialize_ev44_run _ nm) by exact Hnm.
  rewrite insert_insert_eq.
  unfold on_entry. rewrite lookup_insert_eq.
  unfold first_entry, first_entry_size, is_monitor in *. rewrite Hnm in *.
  destruct parent as [pi pn pcs pm pc pa]. simpl in Hnm. subst pn.
  cbn [shallow_copy with_children oid name children module config attributes
       default].
  destruct (contains "monitor" nm) eqn:Hmon.
  - destruct Hpx as [?|Hpx]; [discriminate|].
    erewrite merge_ev44_run by reflexivity. rewrite Hpx.
    cbv beta iota zeta. triple_eq; [reflexivity| |lia].
    rewrite insert_insert_eq. f_equal. unfold merged_fields.
    simpl app.
    replace (S n) with (n + 1) by lia.
    replace (S (n + 1)) with (n + 2) by lia.
    replace (S (n + 2)) with (n + 3) by lia.
    reflexivity.
  - erewrite merge_ev44_run by reflexivity.
    cbv beta iota zeta.
    replace (S n) with (n + 1) by lia.
    replace (S (n + 1)) with (n + 2) by lia.
    replace (S (n + 2)) with (n + 3) by lia.
    replace (S (n + 3)) with (n + 4) by lia.
    replace (S (n + 4)) with (n + 5) by lia.
    unfold merged_fields.
    destruct (pixel_id data_piece) as [px|].
    + match goal with
      | |- context [field_values "event_id" ?g] =>
          replace (field_values "event_id" g) with (Ret (VArray Float64 []))
            by reflexivity
      end.
      cbv beta iota. triple_eq; [reflexivity| |reflexivity].
      rewrite insert_insert_eq. reflexivity.
    + triple_eq; [reflexivity| |reflexivity].
      rewrite insert_insert_eq. reflexivity.
Qed.


(** The bridge touches the store at the path it is given only. *)
Lemma on_entry_frame {A} (path other : NexusPath) (m : Py Node A)
    (store store' : NexusGroupDictStore) (n n' : nat) (r : Outcome A) :
  on_entry path m store n = (r, store', n') ->
  other <> path ->
  store' !! other = store !! other.
Proof.
  unfold on_entry. destruct (store !! path) as [group|].
  - destruct (m group n) as [[r0 group'] n0]. intros [= _ <- _] Hne.
    apply lookup_insert_ne. congruence.
  - intros [= _ <- _] _. reflexivity.
Qed.

Lemma merge_into_path_frame (structure : Node) (data_piece : Ev44)
    (init : Py Node unit) (merge : Ev44 -> Py Node unit)
    (path other : NexusPath) (store store' : NexusGroupDictStore)
    (n n' : nat) (r : Outcome unit) :
  merge_into_path structure data_piece init merge path store n =
    (r, store', n') ->
  other <> path ->
  store' !! other = store !! other.
Proof.
  intros Hrun Hne. revert Hrun.
  cbv [merge_into_path try_except_KeyError].
  destruct (on_entry path (merge data_piece) store n)
    as [[r0 store0] n0] eqn:Efirst.
  pose proof (on_entry_frame _ _ _ _ _ _ _ _ Efirst Hne) as Hfirst.
  assert (Hhandler :
    (parent <- eval (find_parent structure path) ;;
     parent_children <- eval (subscript (children parent)) ;;
     if bool_decide (1 < length parent_children)
     then raise multiple_modules
     else
       new_oid <- fresh ;;
       mutate (insert path
                 (with_children (shallow_copy new_oid parent) (Some []))) ;;;
       on_entry path init ;;;
       on_entry path (merge data_piece)) store0 n0 = (r, store', n') ->
    store' !! other = store !! other).
  { cbv [bind eval raise fresh mutate].
    destruct (find_parent structure path) as [parent|e];
      [|intros [= _ <- _]; exact Hfirst].
    destruct (subscript (children parent)) as [siblings|e];
      [|intros [= _ <- _]; exact Hfirst].
    destruct (bool_decide (1 < length siblings));
      [intros [= _ <- _]; exact Hfirst|].
    match goal with
    | |- context [on_entry path init ?s ?m] =>
        destruct (on_entry path init s m) as [[r1 store1] n1] eqn:Einit
    end.
    pose proof (on_entry_frame _ _ _ _ _ _ _ _ Einit Hne) as Hinit.
    rewrite lookup_insert_ne in Hinit by congruence.
    destruct r1 as [[]|e].
    - intros Hmerge.
      rewrite (on_entry_frame _ _ _ _ _ _ _ _ Hmerge Hne). congruence.
    - intros [= _ <- _]. congruence. }
  destruct r0 as [[]|[]]; try (intros [= _ <- _]; exact Hfirst).
  exact Hhandler.
Qed.

Lemma for_each_frame (structure : Node) (data_piece : Ev44)
    (init : Py Node unit) (merge : Ev44 -> Py Node unit)
    (paths : list NexusPath) (other : NexusPath) :
  other ∉ paths ->
  forall (store store' : NexusGroupDictStore) (n n' : nat) (r : Outcome unit),
    for_each paths (merge_into_path structure data_piece init merge) store n =
      (r, store', n') ->
    store' !! other = store !! other.
Proof.
  induction paths as [|path paths IH]; intros Hnotin store store' n n' r.
  - intros [= _ <- _]. reflexivity.
  - apply not_elem_of_cons in Hnotin as [Hne Hnotin].
    simpl. unfold bind at 1.
    destruct (merge_into_path _ _ _ _ path store n)
      as [[[[]|e] store0] n0] eqn:Estep.
    + intros Hrest. rewrite (IH Hnotin _ _ _ _ _ Hrest).
      eapply merge_into_path_frame; eauto.
    + intros [= _ <- _]. eapply merge_into_path_frame; eauto.
Qed.

(** Whatever the outcome of a call, an entry of the store is created or
    changed only at a path that the message matches. *)
Lemma merge_message_frame (structure : Node) (data_piece : Ev44)
    (store store' : NexusGroupDictStore) (n n' : nat) (r : Outcome unit)
    (other : NexusPath) :
  merge_message_into_data_module_store structure "ev44" data_piece store n =
    (r, store', n') ->
  other ∉ find_ev44_matching_paths structure data_piece ->
  store' !! other = store !! other.
Proof.
  intros Hrun Hnotin. eapply for_each_frame; [exact Hnotin|exact Hrun].
Qed.
Lemma merge_message_ev44 (structure : Node) (data_piece : Ev44) :
  merge_message_into_data_module_store structure "ev44" data_piece =
  for_each (find_ev44_matching_paths structure data_piece)
    (merge_ev44_into_path structure data_piece).
Proof. reflexivity. Qed.

Lemma for_each_cons {St A} (x : A) (rest : list A) (body : A -> Py St unit)
    (s : St) (n : nat) :
  for_each (x :: rest) body s n =
  match body x s n with
  | (Ret _, s', n') => for_each rest body s' n'
  | (Raise e, s', n') => (Raise e, s', n')
  end.
Proof. reflexivity. Qed.



(** C8. A message whose source name is the "source" of no ev44 place
    holder of the template is merged without an error, and the store is
    left as it was; nothing is allocated.  The template is an argument
    that the bridge only reads. *)
Theorem no_match_no_op (structure : Node) (data_piece : Ev44)
    (store : NexusGroupDictStore) (n : nat) :
  (forall path node,
     (path, node) ∈ iter_nexus_structure structure None ->
     module node = Some "ev44" ->
     match config node with
     | Some c => source c
     | None => None
     end <> Some (source_name data_piece)) ->
  merge_message_into_data_module_store structure "ev44" data_piece store n =
  (Ret tt, store, n).
Proof.
  intros Hno. rewrite merge_message_ev44.
  assert (find_ev44_matching_paths structure data_piece = []) as ->;
    [|reflexivity].
  unfold find_ev44_matching_paths.
  assert (forall l : list (NexusPath * Node),
            (forall pn, pn ∈ l -> is_ev44_for (source_name data_piece) pn.2 = false) ->
            List.filter (fun pn => is_ev44_for (source_name data_piece) pn.2) l = [])
    as Hfilter.
  { induction l as [|pn l IH]; intros Hall; [reflexivity|].
    simpl. rewrite (Hall pn) by apply list_elem_of_here.
    apply IH. intros pn' Hin. apply Hall. apply list_elem_of_further, Hin. }
  rewrite Hfilter; [reflexivity|].
  intros [path node] Hin. simpl. unfold is_ev44_for.
  apply andb_false_iff.
  destruct (decide (module node = Some "ev44")) as [Hm|Hm].
  - right. apply bool_decide_eq_false. intros Hsrc.
    apply (Hno _ _ Hin Hm). exact Hsrc.
  - left. apply bool_decide_eq_false. exact Hm.
Qed.


(** ** The loop over the matched paths *)

Lemma first_entry_holds_batch (parent : Node) (data_piece : Ev44) (n : nat) :
  holds_batch data_piece (first_entry parent data_piece n).
Proof.
  unfold holds_batch. repeat split.
  unfold first_entry, is_monitor. simpl.
  destruct (name parent) as [nm|]; [|intros _; reflexivity].
  intros ->. reflexivity.
Qed.

(** The merger on a group that holds the ev44 fields, the "event_id" field
    too if the message needs it. *)
Lemma merge_ev44_appends (data_piece : Ev44) (group : Node) (n : nat)
    (tz to ti : Dtype) (zero offset index : list Z) :
  field_values "event_time_zero" group = Ret (VArray tz zero) ->
  field_values "event_time_offset" group = Ret (VArray to offset) ->
  field_values "event_index" group = Ret (VArray ti index) ->
  pixel_id data_piece = None \/
    (exists td ids, field_values "event_id" group = Ret (VArray td ids)) ->
  exists group',
    _merge_ev44 data_piece group n = (Ret tt, group', n) /\
    field_values "event_time_zero" group' =
      Ret (VArray tz (zero ++ astype tz (reference_time data_piece))) /\
    field_values "event_time_offset" group' =
      Ret (VArray to (offset ++ astype to (time_of_flight data_piece))) /\
    field_values "event_index" group' =
      Ret (VArray ti
             (index ++
              astype ti (np_add (reference_time_index data_piece)
                           (length offset)))).
Proof.
  intros Hz Ho Hi Hpx.
  destruct (merged_fields_values data_piece _ _ _ _ _ _ _ Hz Ho Hi)
    as (Hz' & Ho' & Hi' & Hid).
  rewrite (merge_ev44_run _ _ _ _ _ _ _ _ _ Hz Ho Hi). cbv zeta.
  destruct (pixel_id data_piece) as [px|] eqn:Epx.
  - destruct Hpx as [?|(td & ids & Hids)]; [discriminate|]. rewrite Hids.
    eexists. split; [reflexivity|].
    rewrite !field_values_set_field_other by discriminate. auto.
  - eexists. split; [reflexivity|]. auto.
Qed.


Section Loop.

Variables (structure : Node) (data_piece : Ev44).



End Loop.

(** ** Values that the arithmetic of numpy leaves as they are *)

Lemma float64_of_int_exact (z : Z) :
  (Z.abs z <= 2 ^ 53)%Z -> float64_of_int z = z.
Proof.
  intros Hz. unfold float64_of_int. cbv zeta.
  destruct (Z.ltb_spec (Z.abs z) (2 ^ 53)) as [Hlt|Hge]; [reflexivity|].
  assert (Habs : Z.abs z = (2 ^ 53)%Z) by lia.
  destruct (Z.abs_eq_or_opp z) as [Heq|Heq]; rewrite Heq in Habs.
  - subst z. reflexivity.
  - assert (z = (- 2 ^ 53)%Z) as -> by lia. reflexivity.
Qed.

Lemma wrap_int64_exact (z : Z) :
  (- 2 ^ 63 <= z < 2 ^ 63)%Z -> wrap_int64 z = z.
Proof.
  intros Hz. unfold wrap_int64. rewrite Z.mod_small; lia.
Qed.

Lemma astype_exact (t : Dtype) (a : list Z) :
  float64_exact a -> astype t a = a.
Proof.
  destruct t; simpl; [|reflexivity].
  induction 1 as [|z a Hz Ha IH]; [reflexivity|].
  rewrite fmap_cons, IH, float64_of_int_exact by exact Hz. reflexivity.
Qed.

Lemma np_add_exact (a : list Z) (k : nat) :
  float64_exact (shifted a k) -> np_add a k = shifted a k.
Proof.
  unfold float64_exact. induction a as [|i a IH]; intros H; [reflexivity|].
  unfold np_add, shifted in *. rewrite !fmap_cons in *.
  apply Forall_cons in H as [Hi Ha]. rewrite IH by exact Ha.
  rewrite wrap_int64_exact; [reflexivity|]. lia.
Qed.


(** The shifted index as it is stored, when float64 holds the sums. *)
Lemma stored_index_exact (t : Dtype) (a : list Z) (k : nat) :
  float64_exact (shifted a k) -> astype t (np_add a k) = shifted a k.
Proof.
  intros Hk. rewrite np_add_exact by exact Hk. apply astype_exact, Hk.
Qed.


(** *** What the initializer and the merger can raise *)

Lemma raises_within_bind {St A B} (P : Exn -> Prop) (m : Py St A)
    (k : A -> Py St B) :
  raises_within P m -> (forall a, raises_within P (k a)) ->
  raises_within P (bind m k).
Proof.
  intros Hm Hk s n e s' n'. unfold bind.
  destruct (m s n) as [[[a|e0] s0] n0] eqn:Em.
  - apply Hk.
  - intros [= <- _ _]. eapply Hm, Em.
Qed.

Lemma raises_within_eval {St A} (P : Exn -> Prop) (o : Outcome A) :
  (forall e, o = Raise e -> P e) -> raises_within P (@eval St A o).
Proof. intros Ho s n e s' n' [= -> _ _]. auto. Qed.

Lemma raises_within_ret {St A} (P : Exn -> Prop) (a : A) :
  raises_within P (@ret St A a).
Proof. intros s n e s' n' [=]. Qed.

Lemma raises_within_mutate {St} (P : Exn -> Prop) (f : St -> St) :
  raises_within P (mutate f).
Proof. intros s n e s' n' [=]. Qed.

Lemma raises_within_self {St} (P : Exn -> Prop) :
  raises_within P (@self St).
Proof. intros s n e s' n' [=]. Qed.

Lemma raises_within_fresh {St} (P : Exn -> Prop) :
  raises_within P (@fresh St).
Proof. intros s n e s' n' [=]. Qed.

Lemma find_nexus_structure_raises (path : NexusPath) (structure : Node)
    (e : Exn) :
  find_nexus_structure structure path = Raise e -> e = KeyError.
Proof.
  revert structure. induction path as [|head tail IH]; intros structure.
  - discriminate.
  - simpl. destruct (children structure) as [cs|]; simpl; [|congruence].
    destruct (first_named head cs) as [child|]; [apply IH|congruence].
Qed.

Lemma subscript_raises {A} (field : option A) (e : Exn) :
  subscript field = Raise e -> e = KeyError.
Proof. destruct field; simpl; congruence. Qed.

Lemma get_array_values_raises (dataset : Node) (e : Exn) :
  _get_array_values dataset = Raise e -> e = KeyError.
Proof.
  unfold _get_array_values. destruct (config dataset) as [c|]; simpl;
    [apply subscript_raises|congruence].
Qed.

Lemma set_values_raises (dataset : Node) (v : Values) (e : Exn) :
  _set_values dataset v = Raise e -> e = KeyError.
Proof.
  unfold _set_values. destruct (config dataset); simpl; congruence.
Qed.

Lemma np_concatenate_raises (a : Values) (b : list Z) (e : Exn) :
  np_concatenate a b = Raise e -> lookup_or_numpy_error e.
Proof. destruct a; simpl; [discriminate|]. intros [= <-]. right. reflexivity. Qed.

Ltac raises_step :=
  first
    [ apply raises_within_bind; [|intros ?]
    | apply raises_within_ret
    | apply raises_within_mutate
    | apply raises_within_self
    | apply raises_within_fresh
    | apply raises_within_eval; intros ? ?;
      first [ left; eapply find_nexus_structure_raises; eassumption
            | left; eapply get_array_values_raises; eassumption
            | left; eapply set_values_raises; eassumption
            | left; eapply subscript_raises; eassumption
            | eapply np_concatenate_raises; eassumption ] ].

Lemma merge_ev44_raises (data_piece : Ev44) :
  raises_within lookup_or_numpy_error (_merge_ev44 data_piece).
Proof.
  unfold _merge_ev44, find_in_group, set_values_in_group. cbv zeta.
  do 30 try raises_step.
  destruct (pixel_id data_piece); repeat raises_step.
Qed.

Lemma initialize_ev44_raises :
  raises_within lookup_or_numpy_error _initialize_ev44.
Proof.
  unfold _initialize_ev44, create_dataset, append_child.
  do 30 try raises_step.
  match goal with |- context [if ?b then _ else _] => destruct b end;
    repeat raises_step.
Qed.

Lemma on_entry_raises {A} (path : NexusPath) (m : Py Node A)
    (store : NexusGroupDictStore) (group : Node) :
  store !! path = Some group ->
  raises_within lookup_or_numpy_error m ->
  forall n e store' n',
    on_entry path m store n = (Raise e, store', n') ->
    lookup_or_numpy_error e.
Proof.
  intros Hs Hm n e store' n'. unfold on_entry. rewrite Hs.
  destruct (m group n) as [[r group'] n0] eqn:Em.
  intros [= -> _ _]. eapply Hm, Em.
Qed.

(** The check of the parent's children precedes the insertion. *)
Lemma merge_into_path_check_first (structure : Node) (data_piece : Ev44)
    (path : NexusPath) (store store' : NexusGroupDictStore) (n n' : nat) :
  store !! path = None ->
  merge_ev44_into_path structure data_piece path store n =
    (Raise multiple_modules, store', n') ->
  store' = store /\ n' = n.
Proof.
  intros Hs.
  cbv [merge_ev44_into_path merge_into_path try_except_KeyError].
  unfold on_entry at 1. rewrite Hs.
  cbv [bind eval raise fresh mutate].
  destruct (find_parent structure path) as [parent|e];
    [|intros [= _ <- <-]; auto].
  destruct (subscript (children parent)) as [siblings|e];
    [|intros [= _ <- <-]; auto].
  destruct (bool_decide (1 < length siblings)); [intros [= <- <-]; auto|].
  match goal with
  | |- context [on_entry path _initialize_ev44 ?s ?m] =>
      destruct (on_entry path _initialize_ev44 s m)
        as [[[[]|e] store1] n1] eqn:Hinit
  end.
  - intros Hmerge. exfalso.
    assert (is_Some (store1 !! path)) as [group1 Hs1].
    { revert Hinit. unfold on_entry. rewrite lookup_insert_eq.
      destruct (_initialize_ev44 _ _) as [[r g] k].
      intros [= _ <- _]. rewrite lookup_insert_eq. eauto. }
    destruct (on_entry_raises _ _ _ _ Hs1 (merge_ev44_raises data_piece)
                _ _ _ _ Hmerge) as [?|?]; discriminate.
  - intros [= -> _ _]. exfalso.
    destruct (on_entry_raises _ _ _ _ (lookup_insert_eq _ _ _)
                initialize_ev44_raises _ _ _ _ Hinit) as [?|?]; discriminate.
Qed.

(** A loop that raises does so in the body, at one element, after the
    elements before it have been processed. *)
Lemma for_each_raises {St A} (xs : list A) (body : A -> Py St unit) :
  forall (s : St) (n : nat) (e : Exn) (s' : St) (n' : nat),
    for_each xs body s n = (Raise e, s', n') ->
    exists done x rest s1 n1,
      xs = done ++ x :: rest /\
      for_each done body s n = (Ret tt, s1, n1) /\
      body x s1 n1 = (Raise e, s', n').
Proof.
  induction xs as [|x xs IH]; intros s n e s' n'; [discriminate|].
  rewrite for_each_cons.
  destruct (body x s n) as [[[[]|e0] s0] n0] eqn:Ebody.
  - intros Hrest.
    destruct (IH _ _ _ _ _ Hrest) as (done & y & rest & s1 & n1 & -> & Hd & Hy).
    exists (x :: done), y, rest, s1, n1. split; [reflexivity|].
    split; [|exact Hy]. rewrite for_each_cons, Ebody. exact Hd.
  - intros [= <- <- <-]. exists [], x, xs, s, n. auto.
Qed.

(** C3, as the code has it.  When the call raises the multiple-modules
    [ValueError], it does so at one matched path, after the paths matched
    before it have been merged; if that path has no entry, the store is
    left exactly as the earlier paths made it: no entry has been inserted
    for the failing path and nothing appended, and no dict allocated.  The
    check precedes the insertion. *)
Theorem merge_check_precedes_insertion (structure : Node) (data_piece : Ev44)
    (store store' : NexusGroupDictStore) (n n' : nat) :
  merge_message_into_data_module_store structure "ev44" data_piece store n =
    (Raise multiple_modules, store', n') ->
  exists done path rest store1 n1,
    find_ev44_matching_paths structure data_piece = done ++ path :: rest /\
    for_each done (merge_ev44_into_path structure data_piece) store n =
      (Ret tt, store1, n1) /\
    merge_ev44_into_path structure data_piece path store1 n1 =
      (Raise multiple_modules, store', n') /\
    (store1 !! path = None -> store' = store1 /\ n' = n1).
Proof.
  rewrite merge_message_ev44. intros Hrun.
  destruct (for_each_raises _ _ _ _ _ _ _ Hrun)
    as (done & path & rest & store1 & n1 & Hpaths & Hdone & Hpath).
  exists done, path, rest, store1, n1. repeat split; auto;
    eapply merge_into_path_check_first; eauto.
Qed.
(** ** The combiner *)

Lemma combine_unfold (store : NexusGroupDictStore) (structure : Node) :
  combine_data_module_store_and_structure store structure =
  if bool_decide (size store = 0) then ret structure
  else
    match store !! [None] with
    | Some group => ret group
    | None =>
        new_oid <- fresh ;;
        let new := shallow_copy new_oid structure in
        match children structure with
        | None => ret new
        | Some cs =>
            new_children <- combine_children store cs [] ;;
            ret (with_children new (Some new_children))
        end
    end.
Proof. destruct structure; reflexivity. Qed.

Lemma combine_children_cons (store : NexusGroupDictStore) (child : Node)
    (rest acc : list Node) :
  combine_children store (child :: rest) acc =
  (sub <- eval (strip_head (_node_name child) store) ;;
   combined <- combine_data_module_store_and_structure sub child ;;
   combine_children store rest (acc ++ [combined])).
Proof. reflexivity. Qed.

Lemma combine_empty (structure : Node) (n : nat) :
  combine_data_module_store_and_structure ∅ structure tt n =
  (Ret structure, tt, n).
Proof. rewrite combine_unfold, map_size_empty. reflexivity. Qed.

Lemma strip_head_singleton (child_name head : option string)
    (tail : NexusPath) (group : Node) :
  strip_head child_name {[ head :: tail := group ]} =
  Ret (if bool_decide (head = child_name) then {[ tail := group ]} else ∅).
Proof.
  unfold strip_head. rewrite map_to_list_singleton. simpl.
  destruct (bool_decide (head = child_name)); [|reflexivity].
  rewrite insert_empty. reflexivity.
Qed.

Lemma combine_singleton (path : NexusPath) (group structure : Node) :
  path <> [None] ->
  combine_data_module_store_and_structure {[ path := group ]} structure =
  (new_oid <- fresh ;;
   let new := shallow_copy new_oid structure in
   match children structure with
   | None => ret new
   | Some cs =>
       new_children <- combine_children {[ path := group ]} cs [] ;;
       ret (with_children new (Some new_children))
   end).
Proof.
  intros Hne. rewrite combine_unfold, map_size_singleton.
  rewrite lookup_singleton_ne by exact Hne. reflexivity.
Qed.

(** The combiner only ever draws identities from the counter. *)
Lemma combine_counter (structure : Node) :
  forall (store : NexusGroupDictStore) (n : nat) r u n',
    combine_data_module_store_and_structure store structure tt n = (r, u, n') ->
    n <= n'.
Proof.
  induction structure as [structure IH] using Node_children_ind.
  intros store n r u n'. rewrite combine_unfold.
  destruct (bool_decide (size store = 0)); [intros [= _ _ <-]; lia|].
  destruct (store !! [None]); [intros [= _ _ <-]; lia|].
  cbv [bind fresh ret]. cbv zeta.
  destruct (children structure) as [cs|]; [|intros [= _ _ <-]; lia].
  specialize (IH cs eq_refl).
  assert (Hloop : forall acc m r1 u1 m',
             combine_children store cs acc tt m = (r1, u1, m') -> m <= m').
  { induction cs as [|child rest IHrest]; intros acc m r1 u1 m'.
    - intros [= _ _ <-]. lia.
    - apply Forall_cons in IH as [IHchild IH].
      rewrite combine_children_cons. cbv [bind eval].
      destruct (strip_head _ store) as [sub|e]; [|intros [= _ _ <-]; lia].
      destruct (combine_data_module_store_and_structure sub child tt m)
        as [[[c|e] []] m1] eqn:Ec.
      + intros Hrest. apply IHchild in Ec. apply (IHrest IH) in Hrest. lia.
      + intros [= _ _ <-]. eapply IHchild, Ec. }
  destruct (combine_children store cs [] tt (S n)) as [[[out|e] []] m] eqn:El.
  - intros [= _ _ <-]. apply Hloop in El. lia.
  - intros [= _ _ <-]. apply Hloop in El. lia.
Qed.

(** What the loop over the children leaves at each index. *)
Lemma combine_children_lookup (store : NexusGroupDictStore) (cs : list Node) :
  forall (acc : list Node) (n : nat) (out : list Node) (n' : nat),
    combine_children store cs acc tt n = (Ret out, tt, n') ->
    n <= n' /\
    (forall k, k < length acc -> out !! k = acc !! k) /\
    forall (j : nat) (child : Node),
      cs !! j = Some child ->
      exists sub nj combined nj',
        strip_head (_node_name child) store = Ret sub /\
        combine_data_module_store_and_structure sub child tt nj =
          (Ret combined, tt, nj') /\
        n <= nj /\ nj' <= n' /\
        out !! (length acc + j) = Some combined.
Proof.
  induction cs as [|child rest IH]; intros acc n out n'.
  - intros [= <- <-]. split; [lia|]. split; [reflexivity|].
    intros j c Hj. inversion Hj.
  - rewrite combine_children_cons. cbv [bind eval].
    destruct (strip_head _ store) as [sub|e] eqn:Esub; [|discriminate].
    destruct (combine_data_module_store_and_structure sub child tt n)
      as [[[c|e] []] m] eqn:Ec; [|discriminate].
    intros Hrest. pose proof (combine_counter _ _ _ _ _ _ Ec) as Hle.
    destruct (IH _ _ _ _ Hrest) as (Hle' & Hacc & Hlookup).
    rewrite length_app in Hacc. simpl in Hacc.
    split; [lia|]. split.
    { intros k Hk. rewrite Hacc by lia. apply lookup_app_l. lia. }
    intros [|j] c' Hj.
    + injection Hj as <-. exists sub, n, c, m.
      repeat split; [exact Esub|exact Ec|lia|lia|].
      rewrite Nat.add_0_r, Hacc by lia.
      rewrite lookup_app_r by lia. rewrite Nat.sub_diag. reflexivity.
    + simpl in Hj. destruct (Hlookup j c' Hj)
        as (sub' & nj & c'' & nj' & Hs' & Hc' & Hn1 & Hn2 & Hout).
      exists sub', nj, c'', nj'. repeat split; auto; try lia.
      rewrite <- Hout. f_equal. rewrite length_app. simpl. lia.
Qed.

Lemma names_along_cons (tree : Node) (i : nat) (position : list nat)
    (names : NexusPath) :
  names_along tree (i :: position) = Some names ->
  exists cs child names',
    children tree = Some cs /\ cs !! i = Some child /\
    names_along child position = Some names' /\
    names = _node_name child :: names'.
Proof.
  simpl. destruct (children tree) as [cs|]; [|discriminate].
  destruct (cs !! i) as [child|] eqn:Hi; [|discriminate].
  destruct (names_along child position) as [names'|] eqn:Hn; [|discriminate].
  intros [= <-]. exists cs, child, names'. auto.
Qed.


(** The entry of a nameless place holder takes the place of the group that
    holds the place holder, and it is the stored group itself. *)
Lemma combine_single_overlay (group : Node) (position : list nat) :
  forall (template : Node) (prefix : NexusPath)
         (n : nat) (result : Node) (n' : nat),
    combine_data_module_store_and_structure {[ prefix ++ [None] := group ]}
      template tt n = (Ret result, tt, n') ->
    names_along template position = Some prefix ->
    descend result position = Some group.
Proof.
  induction position as [|j position IH];
    intros template prefix n result n' Hrun Hnames.
  - injection Hnames as <-. simpl app in Hrun.
    rewrite combine_unfold, map_size_singleton, lookup_singleton_eq in Hrun.
    injection Hrun as <- _. reflexivity.
  - apply names_along_cons in Hnames
      as (cs & child & names' & Hcs & Hj & Hnames' & ->).
    simpl app in Hrun.
    rewrite combine_singleton in Hrun by (destruct names'; discriminate).
    cbv [bind fresh ret] in Hrun. cbv zeta in Hrun. rewrite Hcs in Hrun.
    destruct (combine_children _ cs [] tt (S n)) as [[[out|e] []] m] eqn:El;
      [|discriminate].
    injection Hrun as <- <-.
    destruct (combine_children_lookup _ _ _ _ _ _ El) as (_ & _ & Hlookup).
    destruct (Hlookup j child Hj)
      as (sub & nj & combined & nj' & Hsub & Hc & _ & _ & Hout).
    rewrite strip_head_singleton in Hsub.
    rewrite bool_decide_eq_true_2 in Hsub by reflexivity.
    injection Hsub as <-. simpl in Hout.
    simpl. rewrite Hout. eapply IH; eauto.
Qed.

(** An overlay entry for a nameless place holder: the combiner returns. *)
Lemma combine_single_returns (group : Node) (template : Node) :
  forall (path : NexusPath) (n : nat),
    last path = Some None ->
    exists result n',
      combine_data_module_store_and_structure {[ path := group ]} template
        tt n = (Ret result, tt, n').
Proof.
  induction template as [template IH] using Node_children_ind.
  intros path n Hlast.
  destruct (decide (path = [None])) as [->|Hne].
  { rewrite combine_unfold, map_size_singleton, lookup_singleton_eq.
    eauto. }
  rewrite combine_singleton by exact Hne.
  cbv [bind fresh ret]. cbv zeta.
  destruct (children template) as [cs|] eqn:Hcs; [|eauto].
  specialize (IH cs eq_refl).
  destruct path as [|head tail]; [discriminate|].
  assert (Htail : tail <> [] -> last tail = Some None).
  { intros Ht. destruct tail; [contradiction|exact Hlast]. }
  assert (Hloop : forall acc m, exists out m',
             combine_children {[ head :: tail := group ]} cs acc tt m =
             (Ret out, tt, m')).
  { clear Hcs. induction cs as [|child rest IHrest]; intros acc m.
    - eexists _, _. reflexivity.
    - apply Forall_cons in IH as [IHchild IH].
      rewrite combine_children_cons. cbv [bind eval].
      rewrite strip_head_singleton.
      destruct (bool_decide (head = _node_name child)).
      + destruct (decide (tail = [])) as [->|Ht].
        { exfalso. apply Hne. simpl in Hlast. congruence. }
        destruct (IHchild tail m (Htail Ht)) as (c & m1 & ->).
        apply IHrest, IH.
      + rewrite combine_empty. apply IHrest, IH. }
  destruct (Hloop [] (S n)) as (out & m' & ->). eauto.
Qed.

(** ** The claims on concrete inputs *)

(** The two messages of the detector bank, merged one after the other into
    an empty store. *)
Example two_batches_merged :
  let '(_, store1, n1) :=
    merge_message_into_data_module_store example_template "ev44" batch_A ∅ 10
  in
  let '(_, store2, _) :=
    merge_message_into_data_module_store example_template "ev44" batch_B
      store1 n1 in
  (fun group =>
     (field_values "event_time_zero" group,
      field_values "event_time_offset" group,
      field_values "event_index" group,
      field_values "event_id" group)) <$> store2 !! detector_path =
  Some (Ret (VArray Float64 [100; 200]%Z), Ret (VArray Float64 [5; 6; 7]%Z),
        Ret (VArray Float64 [0; 2]%Z), Ret (VArray Float64 [1; 2; 3]%Z)).
Proof. vm_compute. reflexivity. Qed.

(** The arithmetic of numpy on two inputs: a time stamp in nanoseconds has
    more than 53 significant bits and is rounded when it becomes a float64;
    an int64 sum beyond 2^63 - 1 wraps around. *)
Example time_stamp_rounded :
  astype Float64 [1730649600123456789%Z] = [1730649600123456768%Z] /\
  astype Int64 [1730649600123456789%Z] = [1730649600123456789%Z].
Proof. split; reflexivity. Qed.

Example index_sum_wraps :
  np_add [9223372036854775807%Z; 0%Z] 1 = [(-9223372036854775808)%Z; 1%Z].
Proof. reflexivity. Qed.

Lemma iter_find_roundtrip_witness :
  unique_sibling_names example_template /\
  (forall path node,
     (path, node) ∈ iter_nexus_structure example_template None ->
     find_nexus_structure example_template path = Ret node) /\
  find_nexus_structure example_template [] = Ret example_template.
Proof.
  assert (H : unique_sibling_names example_template).
  { simpl. repeat split; refine (bool_decide_unpack _ _); vm_compute; exact I. }
  split; [exact H|]. apply (iter_find_roundtrip example_template H).
Defined.

Lemma initialize_ev44_field_set_witness :
  exists event_id_field,
    _initialize_ev44 new_monitor_group 11 =
    (Ret tt,
     with_children new_monitor_group
       (Some (default [] (children new_monitor_group) ++
              [ev44_dataset 11 "event_time_zero" (Some "ns") [];
               ev44_dataset (11 + 1) "event_time_offset" (Some "ns") [];
               ev44_dataset (11 + 2) "event_index" None []] ++
              event_id_field)),
     11 + 3 + length event_id_field) /\
    (is_substring "monitor" "monitor_1" -> event_id_field = []) /\
    (~ is_substring "monitor" "monitor_1" ->
     event_id_field = [ev44_dataset (11 + 3) "event_id" None []]).
Proof.
  apply (initialize_ev44_field_set new_monitor_group "monitor_1" 11).
  reflexivity.
Defined.

Lemma merge_without_pixel_id_witness :
  exists group' offset' index',
    _merge_ev44 batch_without_pixel_id
      (first_entry detector_group batch_A 10) 15 = (Ret tt, group', 15) /\
    field_values "event_id" group' =
      field_values "event_id" (first_entry detector_group batch_A 10) /\
    field_values "event_time_offset" group' = Ret (VArray Float64 offset') /\
    offset' =
      [5; 6]%Z ++ astype Float64 (time_of_flight batch_without_pixel_id) /\
    length offset' = 2 + length (time_of_flight batch_without_pixel_id) /\
    field_values "event_index" group' = Ret (VArray Float64 index') /\
    length index' = 1 + length (reference_time_index batch_without_pixel_id).
Proof.
  apply (merge_without_pixel_id (first_entry detector_group batch_A 10)
           batch_without_pixel_id 15 Float64 Float64 Float64
           [100%Z] [5%Z; 6%Z] [0%Z]);
    reflexivity.
Defined.






Lemma no_match_no_op_witness :
  merge_message_into_data_module_store example_template "ev44" unmatched_batch
    ∅ 10 = (Ret tt, ∅, 10).
Proof.
  apply (no_match_no_op example_template unmatched_batch ∅ 10).
  intros path node Hin Hmodule.
  apply list_elem_of_In in Hin. simpl in Hin.
  destruct Hin as [Heq|[Heq|[Heq|[Heq|[Heq|[]]]]]];
    injection Heq as <- <-; simpl in *; discriminate.
Defined.

Lemma merge_check_precedes_insertion_witness :
  exists done path rest store1 n1,
    find_ev44_matching_paths crowded_template batch_A = done ++ path :: rest /\
    for_each done (merge_ev44_into_path crowded_template batch_A) ∅ 10 =
      (Ret tt, store1, n1) /\
    merge_ev44_into_path crowded_template batch_A path store1 n1 =
      (Raise multiple_modules, ∅, 10) /\
    (store1 !! path = None -> ∅ = store1 /\ 10 = n1).
Proof.
  apply (merge_check_precedes_insertion crowded_template batch_A ∅ ∅ 10 10).
  reflexivity.
Defined.

(** A failing merge need not leave the failing path as it was: a monitor
    receives a message with "pixel_id"; the merger raises [KeyError] at
    "event_id", after the entry has been inserted and three fields
    appended to. *)
Lemma merge_not_atomic_on_error : ~ merge_atomic_on_error.
Proof.
  intros Hatomic.
  pose proof (Hatomic example_template monitor_batch_B monitor_path ∅
                (merge_message_into_data_module_store example_template "ev44"
                   monitor_batch_B ∅ 10).1.2
                10
                (merge_message_into_data_module_store example_template "ev44"
                   monitor_batch_B ∅ 10).2
                KeyError eq_refl) as H.
  assert (Hrun : merge_message_into_data_module_store example_template "ev44"
                   monitor_batch_B ∅ 10 =
                 (Raise KeyError,
                  (merge_message_into_data_module_store example_template
                     "ev44" monitor_batch_B ∅ 10).1.2,
                  (merge_message_into_data_module_store example_template
                     "ev44" monitor_batch_B ∅ 10).2))
    by (vm_compute; reflexivity).
  specialize (H Hrun). vm_compute in H. discriminate H.
Qed.

(** C2 on a failing input.  A monitor entry that holds a first batch
    receives a batch with "pixel_id": the merger appends to three fields and
    raises [KeyError] at "event_id"; the bridge takes that [KeyError] for a
    missing entry and puts a newly initialized group in its place.  The
    "event_time_offset" array of the entry shrinks from two elements to
    one. *)
Lemma monitor_entry_reset :
  let '(r1, store1, n1) :=
    merge_message_into_data_module_store example_template "ev44"
      monitor_batch_A ∅ 10 in
  let '(r2, store2, n2) :=
    merge_message_into_data_module_store example_template "ev44"
      monitor_batch_B store1 n1 in
  r1 = Ret tt /\
  field_values "event_time_offset" <$> store1 !! monitor_path =
    Some (Ret (VArray Float64 [5; 6]%Z)) /\
  r2 = Raise KeyError /\
  field_values "event_time_offset" <$> store2 !! monitor_path =
    Some (Ret (VArray Float64 [7%Z])).
Proof. vm_compute. repeat split. Qed.


(** C6 on a failing input.  The datasets that the initializer appends
    declare the "dtype" "int", and the array of each is the float64 array
    [np.asarray([])]; so what is merged into them is stored as float64: a
    time stamp in nanoseconds, 1730649600123456789, comes back as
    1730649600123456768. *)
Lemma initialized_fields_are_float64 :
  let '(r0, group0, n0) := _initialize_ev44 new_detector_group 11 in
  let '(r1, group1, _) := _merge_ev44 large_batch group0 n0 in
  r0 = Ret tt /\
  declared_and_held "event_time_zero" group0 =
    Ret (Some "int", Some (VArray Float64 [])) /\
  declared_and_held "event_time_offset" group0 =
    Ret (Some "int", Some (VArray Float64 [])) /\
  declared_and_held "event_index" group0 =
    Ret (Some "int", Some (VArray Float64 [])) /\
  declared_and_held "event_id" group0 =
    Ret (Some "int", Some (VArray Float64 [])) /\
  r1 = Ret tt /\
  reference_time large_batch = [1730649600123456789%Z] /\
  field_values "event_time_zero" group1 =
    Ret (VArray Float64 [1730649600123456768%Z]).
Proof. vm_compute. repeat split. Qed.


(** * Further properties *)

(** ** The traversal and the lookup *)

(** The first child of a name sits at some index. *)
Lemma first_named_lookup (head : option string) (cs : list Node) (child : Node) :
  first_named head cs = Some child ->
  exists i, cs !! i = Some child /\ _node_name child = head.
Proof.
  unfold first_named. induction cs as [|c rest IH]; simpl; [discriminate|].
  destruct (bool_decide (head = _node_name c)) eqn:Hc.
  - intros [= <-]. exists 0. split; [reflexivity|].
    apply bool_decide_eq_true in Hc. congruence.
  - intros Hfound. destruct (IH Hfound) as (i & Hi & Hname).
    exists (S i). auto.
Qed.

(** A node that the lookup returns stands at a position whose names are
    the path. *)
Lemma find_position (path : NexusPath) :
  forall (tree node : Node),
    find_nexus_structure tree path = Ret node ->
    exists position,
      descend tree position = Some node /\
      names_along tree position = Some path.
Proof.
  induction path as [|head tail IH]; intros tree node.
  - intros [= <-]. exists []. auto.
  - simpl. destruct (children tree) as [cs|] eqn:Hcs; simpl; [|discriminate].
    destruct (first_named head cs) as [child|] eqn:Hchild; [|discriminate].
    intros Hfind. destruct (IH _ _ Hfind) as (position & Hd & Hn).
    destruct (first_named_lookup _ _ _ Hchild) as (i & Hi & Hname).
    exists (i :: position). simpl. rewrite Hcs, Hi, Hn, Hname. auto.
Qed.

(** The traversal below a root path reaches every position. *)
Lemma iter_of_position (position : list nat) :
  forall (tree node : Node) (names : NexusPath) (r : NexusPath),
    descend tree position = Some node ->
    names_along tree position = Some names ->
    (r ++ _node_name tree :: names, node) ∈
      iter_nexus_structure tree (Some r).
Proof.
  induction position as [|i position IH]; intros tree node names r.
  - intros [= <-] [= <-]. rewrite iter_nexus_structure_unfold. simpl.
    apply list_elem_of_here.
  - intros Hd Hn.
    apply names_along_cons in Hn as (cs & child & names' & Hcs & Hi & Hn & ->).
    simpl in Hd. rewrite Hcs, Hi in Hd.
    rewrite iter_nexus_structure_unfold. simpl. rewrite Hcs.
    apply list_elem_of_further, list_elem_of_In, in_flat_map.
    exists child. split; [apply list_elem_of_In, list_elem_of_lookup; eauto|].
    apply list_elem_of_In.
    replace (r ++ _node_name tree :: _node_name child :: names')
      with ((r ++ [_node_name tree]) ++ _node_name child :: names')
      by (rewrite <- app_assoc; reflexivity).
    apply IH; assumption.
Qed.

(** Every pair of the traversal below a root path stands at a position. *)
Lemma position_of_iter (tree : Node) :
  forall (r path : NexusPath) (node : Node),
    (path, node) ∈ iter_nexus_structure tree (Some r) ->
    exists position names,
      descend tree position = Some node /\
      names_along tree position = Some names /\
      path = r ++ _node_name tree :: names.
Proof.
  induction tree as [tree IH] using Node_children_ind.
  intros r path node Hin.
  rewrite iter_nexus_structure_unfold in Hin. simpl in Hin.
  apply elem_of_cons in Hin as [Heq|Hin].
  - injection Heq as -> ->. exists [], []. auto.
  - destruct (children tree) as [cs|] eqn:Hcs; [|inversion Hin].
    specialize (IH cs eq_refl).
    apply list_elem_of_In, in_flat_map in Hin as (c & Hc & Hin).
    apply list_elem_of_In in Hc, Hin.
    rewrite Forall_forall in IH.
    destruct (IH c Hc _ _ _ Hin) as (position & names & Hd & Hn & ->).
    apply list_elem_of_lookup in Hc as [i Hi].
    exists (i :: position), (_node_name c :: names). simpl.
    rewrite Hcs, Hi, Hn. split; [exact Hd|]. split; [reflexivity|].
    rewrite <- app_assoc. reflexivity.
Qed.

Lemma iter_root_positions (tree : Node) (path : NexusPath) (node : Node) :
  (path, node) ∈ iter_nexus_structure tree None <->
  exists position,
    descend tree position = Some node /\
    names_along tree position = Some path.
Proof.
  rewrite iter_nexus_structure_unfold. simpl. split.
  - intros [Heq|Hin]%elem_of_cons.
    + injection Heq as -> ->. exists []. auto.
    + destruct (children tree) as [cs|] eqn:Hcs; [|inversion Hin].
      apply list_elem_of_In, in_flat_map in Hin as (c & Hc & Hin).
      apply list_elem_of_In in Hc, Hin.
      destruct (position_of_iter _ _ _ _ Hin)
        as (position & names & Hd & Hn & ->).
      apply list_elem_of_lookup in Hc as [i Hi].
      exists (i :: position). simpl. rewrite Hcs, Hi, Hn. auto.
  - intros ([|i position] & Hd & Hn).
    + injection Hd as <-. injection Hn as <-. apply list_elem_of_here.
    + apply names_along_cons in Hn
        as (cs & child & names' & Hcs & Hi & Hn & ->).
      simpl in Hd. rewrite Hcs, Hi in Hd. rewrite Hcs.
      apply list_elem_of_further, list_elem_of_In, in_flat_map.
      exists child. split; [apply list_elem_of_In, list_elem_of_lookup; eauto|].
      apply list_elem_of_In.
      apply (iter_of_position position child node names' []); assumption.
Qed.

(** X1. Whatever [find_nexus_structure] returns for a path, the traversal
    [iter_nexus_structure] yields under that very path: the lookup finds
    no node that the traversal does not visit.  No assumption on the names
    of siblings is needed. *)
Theorem find_is_yielded (tree : Node) (path : NexusPath) (node : Node) :
  find_nexus_structure tree path = Ret node ->
  (path, node) ∈ iter_nexus_structure tree None.
Proof.
  intros Hfind. apply iter_root_positions, find_position, Hfind.
Qed.

(** X2. The traversal yields exactly the nodes of the tree, each under the
    names met on the way down to it: a pair (path, node) is yielded if and
    only if the node stands at some position of the tree (a list of child
    indices) along which the names of the nodes, the root left out, spell
    the path. *)
Theorem traversal_yields_positions (tree : Node) (path : NexusPath)
    (node : Node) :
  (path, node) ∈ iter_nexus_structure tree None <->
  exists position,
    descend tree position = Some node /\
    names_along tree position = Some path.
Proof. apply iter_root_positions. Qed.

(** The paths of the children of one node are distinct when the names of
    the children are and the paths below each child are. *)
Lemma children_paths_NoDup (r : NexusPath) (cs : list Node) :
  NoDup (_node_name <$> cs) ->
  Forall (fun c => forall r', NoDup ((iter_nexus_structure c (Some r')).*1))
    cs ->
  NoDup ((flat_map (fun c => iter_nexus_structure c (Some r)) cs).*1).
Proof.
  induction cs as [|c rest IH]; intros Hnames Hall; simpl; [constructor|].
  apply NoDup_cons in Hnames as [Hnotin Hnames].
  apply Forall_cons in Hall as [Hc Hall].
  rewrite fmap_app. apply NoDup_app. split; [apply Hc|].
  split; [|apply IH; assumption].
  intros path Hin1 Hin2.
  apply list_elem_of_fmap in Hin1 as ([p1 n1] & -> & Hin1).
  apply list_elem_of_fmap in Hin2 as ([p2 n2] & Heq & Hin2).
  simpl in Heq. subst p2.
  apply position_of_iter in Hin1 as (_ & names1 & _ & _ & ->).
  apply list_elem_of_In, in_flat_map in Hin2 as (c2 & Hc2 & Hin2).
  apply list_elem_of_In in Hc2, Hin2.
  apply position_of_iter in Hin2 as (_ & names2 & _ & _ & Heq).
  apply app_inv_head in Heq. injection Heq as Hname _.
  apply Hnotin. rewrite Hname. apply list_elem_of_fmap. eauto.
Qed.

Lemma iter_paths_NoDup (tree : Node) :
  unique_sibling_names tree ->
  forall r, NoDup ((iter_nexus_structure tree (Some r)).*1).
Proof.
  induction tree as [tree IH] using Node_children_ind.
  intros Huniq r. rewrite iter_nexus_structure_unfold. simpl.
  destruct (children tree) as [cs|] eqn:Hcs;
    [|apply NoDup_singleton].
  destruct (unique_sibling_names_children _ _ Huniq Hcs) as [Hnd Hall].
  specialize (IH cs eq_refl). apply NoDup_cons. split.
  - intros Hin. apply list_elem_of_fmap in Hin as ([p n] & Heq & Hin).
    simpl in Heq. subst p.
    apply list_elem_of_In, in_flat_map in Hin as (c & Hc & Hin).
    apply list_elem_of_In in Hin.
    apply position_of_iter in Hin as (_ & names & _ & _ & Heq).
    apply (f_equal length) in Heq. rewrite !length_app in Heq.
    simpl in Heq. lia.
  - apply children_paths_NoDup; [exact Hnd|].
    rewrite Forall_forall in IH, Hall. apply Forall_forall.
    intros c Hc. apply IH; auto.
Qed.

Lemma iter_root_paths_NoDup (tree : Node) :
  unique_sibling_names tree ->
  NoDup ((iter_nexus_structure tree None).*1).
Proof.
  intros Huniq. rewrite iter_nexus_structure_unfold. simpl.
  destruct (children tree) as [cs|] eqn:Hcs; [|apply NoDup_singleton].
  destruct (unique_sibling_names_children _ _ Huniq Hcs) as [Hnd Hall].
  apply NoDup_cons. split.
  - intros Hin. apply list_elem_of_fmap in Hin as ([p n] & Heq & Hin).
    simpl in Heq. subst p.
    apply list_elem_of_In, in_flat_map in Hin as (c & Hc & Hin).
    apply list_elem_of_In in Hin.
    apply position_of_iter in Hin as (_ & names & _ & _ & Heq).
    discriminate.
  - apply children_paths_NoDup; [exact Hnd|].
    rewrite Forall_forall in Hall. apply Forall_forall.
    intros c Hc. apply iter_paths_NoDup. auto.
Qed.

(** The round trip of the traversal, for the helpers below. *)
Lemma iter_root_find (tree : Node) (path : NexusPath) (node : Node) :
  unique_sibling_names tree ->
  (path, node) ∈ iter_nexus_structure tree None ->
  find_nexus_structure tree path = Ret node.
Proof.
  intros Huniq Hin.
  rewrite iter_nexus_structure_unfold in Hin. simpl in Hin.
  apply elem_of_cons in Hin as [Heq|Hin].
  - injection Heq as -> ->. reflexivity.
  - destruct (children tree) as [cs|] eqn:Hcs; [|inversion Hin].
    destruct (unique_sibling_names_children _ _ Huniq Hcs) as [Hnd Hall].
    apply list_elem_of_In, in_flat_map in Hin as (c & Hc & Hin).
    apply list_elem_of_In in Hc, Hin.
    rewrite Forall_forall in Hall.
    destruct (iter_below_find c (Hall c Hc) _ _ _ Hin) as (q & -> & Hfind).
    simpl. rewrite Hcs. simpl.
    rewrite (first_named_unique _ _ c Hnd Hc eq_refl). exact Hfind.
Qed.

(** X3. In a tree where no two siblings share a name, the traversal yields
    pairwise distinct paths: a path names one node, so it can serve as the
    key of the data module store. *)
Theorem traversal_paths_distinct (tree : Node) :
  unique_sibling_names tree ->
  NoDup ((iter_nexus_structure tree None).*1).
Proof. apply iter_root_paths_NoDup. Qed.

(** X4. [find_nexus_structure] raises nothing but [KeyError]; and in a tree
    where no two siblings share a name it raises [KeyError] exactly for the
    paths that the traversal does not yield. *)
Theorem find_fails_iff_not_yielded (tree : Node) (path : NexusPath) :
  (forall e, find_nexus_structure tree path = Raise e -> e = KeyError) /\
  (unique_sibling_names tree ->
   (path ∉ (iter_nexus_structure tree None).*1 <->
    find_nexus_structure tree path = Raise KeyError)).
Proof.
  split; [intros e; apply find_nexus_structure_raises|].
  intros Huniq. split.
  - intros Hnotin.
    destruct (find_nexus_structure tree path) as [node|e] eqn:Hfind.
    + exfalso. apply Hnotin. apply list_elem_of_fmap.
      exists (path, node). split; [reflexivity|].
      apply iter_root_positions, find_position, Hfind.
    + apply find_nexus_structure_raises in Hfind. congruence.
  - intros Hfind Hin.
    apply list_elem_of_fmap in Hin as ([p node] & Heq & Hin).
    simpl in Heq. subst p.
    rewrite (iter_root_find _ _ _ Huniq Hin) in Hfind. discriminate.
Qed.

Lemma descend_snoc (position : list nat) :
  forall (tree node : Node) (i : nat) (names : NexusPath),
    descend tree (position ++ [i]) = Some node ->
    names_along tree (position ++ [i]) = Some names ->
    exists parent cs names',
      descend tree position = Some parent /\
      names_along tree position = Some names' /\
      children parent = Some cs /\
      cs !! i = Some node /\
      names = names' ++ [_node_name node].
Proof.
  induction position as [|j position IH]; intros tree node i names Hd Hn.
  - simpl in *. destruct (children tree) as [cs|] eqn:Hcs; [|discriminate].
    destruct (cs !! i) as [c|] eqn:Hi; [|discriminate].
    injection Hd as ->. injection Hn as <-. exists tree, cs, [].
    auto 10.
  - simpl app in *.
    apply names_along_cons in Hn as (cs & child & names' & Hcs & Hj & Hn & ->).
    simpl in Hd. rewrite Hcs, Hj in Hd.
    destruct (IH _ _ _ _ Hd Hn) as (parent & cs' & q & Hd' & Hn' & Hc & Hi & ->).
    exists parent, cs', (_node_name child :: q). simpl.
    rewrite Hcs, Hj, Hn'. auto 10.
Qed.

(** X5. In a tree where no two siblings share a name, [find_parent] on a
    non-empty path of the traversal returns the node that holds the yielded
    node among its children, the node that the traversal yields under the
    path without its last component. *)
Theorem find_parent_holds_child (tree : Node) (path : NexusPath)
    (node : Node) :
  unique_sibling_names tree ->
  (path, node) ∈ iter_nexus_structure tree None ->
  path <> [] ->
  exists parent cs,
    find_parent tree path = Ret parent /\
    children parent = Some cs /\
    node ∈ cs /\
    (removelast path, parent) ∈ iter_nexus_structure tree None.
Proof.
  intros Huniq Hin Hne.
  apply iter_root_positions in Hin as (position & Hd & Hn).
  destruct (exists_last (l := position)) as (position' & i & ->).
  { intros ->. injection Hn as <-. contradiction. }
  destruct (descend_snoc _ _ _ _ _ Hd Hn)
    as (parent & cs & names' & Hd' & Hn' & Hcs & Hi & ->).
  assert (Hparent : (names', parent) ∈ iter_nexus_structure tree None)
    by (apply iter_root_positions; eauto).
  exists parent, cs. unfold find_parent. rewrite removelast_last.
  split; [apply iter_root_find; assumption|]. split; [exact Hcs|].
  split; [apply list_elem_of_lookup; eauto|exact Hparent].
Qed.

Lemma filter_fst_NoDup {A B} (P : A * B -> bool) (l : list (A * B)) :
  NoDup (l.*1) -> NoDup ((List.filter P l).*1).
Proof.
  induction l as [|x l IH]; simpl; [auto|].
  intros [Hnotin Hnd]%NoDup_cons.
  destruct (P x); simpl; [|auto].
  apply NoDup_cons. split; [|auto].
  intros Hin. apply Hnotin.
  apply list_elem_of_fmap in Hin as (y & -> & Hin).
  apply list_elem_of_fmap. exists y. split; [reflexivity|].
  apply list_elem_of_In in Hin. apply filter_In in Hin as [Hin _].
  apply list_elem_of_In, Hin.
Qed.

(** X6. In a tree where no two siblings share a name, the paths that
    [find_ev44_matching_paths] yields for a message are pairwise distinct,
    and they are exactly the paths under which [find_nexus_structure] finds
    an ev44 place holder whose "source" is the source name of the
    message. *)
Theorem matching_paths_resolve (tree : Node) (data_piece : Ev44) :
  unique_sibling_names tree ->
  NoDup (find_ev44_matching_paths tree data_piece) /\
  forall path,
    path ∈ find_ev44_matching_paths tree data_piece <->
    exists node,
      find_nexus_structure tree path = Ret node /\
      module node = Some "ev44" /\
      match config node with
      | Some c => source c
      | None => None
      end = Some (source_name data_piece).
Proof.
  intros Huniq. unfold find_ev44_matching_paths. split.
  { apply filter_fst_NoDup, iter_root_paths_NoDup, Huniq. }
  intros path. split.
  - intros Hin. apply list_elem_of_fmap in Hin as ([p node] & Heq & Hin).
    simpl in Heq. subst p.
    apply list_elem_of_In, filter_In in Hin as [Hin Hmatch].
    apply list_elem_of_In in Hin. simpl in Hmatch.
    unfold is_ev44_for in Hmatch.
    apply andb_true_iff in Hmatch as [Hm Hs].
    apply bool_decide_eq_true in Hm, Hs.
    exists node. split; [apply iter_root_find; assumption|]. auto.
  - intros (node & Hfind & Hm & Hs).
    apply list_elem_of_fmap. exists (path, node). split; [reflexivity|].
    apply list_elem_of_In, filter_In. split.
    + apply list_elem_of_In, iter_root_positions, find_position, Hfind.
    + simpl. unfold is_ev44_for.
      rewrite !bool_decide_eq_true_2 by assumption. reflexivity.
Qed.

(** X26. The lookup stops at the first child that carries the next name
    and never turns back: the result for the whole path is the result for
    the rest of the path below that child, also when that is a [KeyError]
    and a later sibling of the same name holds the rest of the path. *)
Theorem find_stops_at_first_sibling (tree : Node) (cs : list Node)
    (i : nat) (child : Node) (tail : NexusPath) :
  children tree = Some cs ->
  cs !! i = Some child ->
  (forall j sibling,
     j < i -> cs !! j = Some sibling ->
     _node_name sibling <> _node_name child) ->
  find_nexus_structure tree (_node_name child :: tail) =
  find_nexus_structure child tail.
Proof.
  intros Hcs Hi Hbefore. simpl. rewrite Hcs. simpl.
  assert (first_named (_node_name child) cs = Some child) as ->;
    [|reflexivity].
  unfold first_named. clear Hcs. revert i Hi Hbefore.
  induction cs as [|c rest IH]; intros i Hi Hbefore; [inversion Hi|].
  simpl. destruct i as [|i].
  - injection Hi as ->. rewrite bool_decide_eq_true_2; reflexivity.
  - rewrite bool_decide_eq_false_2.
    + apply (IH i Hi). intros j sibling Hj Hs.
      apply (Hbefore (S j) sibling); [lia|exact Hs].
    + intros Heq. apply (Hbefore 0 c); [lia|reflexivity|congruence].
Qed.

(** ** Every place holder of the source *)





(** ** The initializer and the merger *)

(** X7. On a group dict without the key "name" the initializer raises
    [KeyError], at the test for "monitor", after it has appended the three
    datasets "event_time_zero", "event_time_offset" and "event_index": the
    group is left half initialized, without "event_id". *)
Theorem initialize_without_name (group : Node) (n : nat) :
  name group = None ->
  _initialize_ev44 group n =
  (Raise KeyError,
   with_children group
     (Some (default [] (children group) ++
            [ev44_dataset n "event_time_zero" (Some "ns") [];
             ev44_dataset (n + 1) "event_time_offset" (Some "ns") [];
             ev44_dataset (n + 2) "event_index" None []])),
   n + 3).
Proof.
  intros Hname. destruct group as [i nm cs m c a]. simpl in Hname. subst nm.
  cbv [_initialize_ev44 bind mutate create_dataset append_child fresh ret
         self eval with_children subscript]; simpl.
  replace (n + 1) with (S n) by lia. replace (n + 2) with (S (S n)) by lia.
  replace (n + 3) with (S (S (S n))) by lia.
  rewrite <- !app_assoc. reflexivity.
Qed.

(** One "read the field, concatenate, write it back" step of the merger,
    whatever the group holds. *)
Lemma append_block_outcome (field : string) (new : list Z) (group : Node)
    (n : nat) {A} (k : Values -> Py Node A) :
  (dataset <- find_in_group [Some field] ;;
   original <- eval (_get_array_values dataset) ;;
   merged <- eval (np_concatenate original new) ;;
   set_values_in_group [Some field] dataset merged ;;;
   k original) group n =
  match field_values field group with
  | Ret (VArray t orig) =>
      k (VArray t orig)
        (set_field field (VArray t (orig ++ astype t new)) group) n
  | Ret (VScalar _) =>
      (Raise (ValueError "zero-dimensional arrays cannot be concatenated"),
       group, n)
  | Raise e => (Raise e, group, n)
  end.
Proof.
  destruct (field_values field group) as [[t orig|text]|e] eqn:Hfield.
  - apply append_to_field_run, Hfield.
  - revert Hfield. unfold field_values.
    cbv [bind find_in_group self eval].
    destruct (find_nexus_structure group [Some field]) as [d|]; simpl;
      [|discriminate].
    intros ->. reflexivity.
  - revert Hfield. unfold field_values.
    cbv [bind find_in_group self eval].
    destruct (find_nexus_structure group [Some field]) as [d|]; simpl.
    + intros ->. reflexivity.
    + intros [= ->]. reflexivity.
Qed.

Lemma append_block_last_outcome (field : string) (new : list Z) (group : Node)
    (n : nat) :
  (dataset <- find_in_group [Some field] ;;
   original <- eval (_get_array_values dataset) ;;
   merged <- eval (np_concatenate original new) ;;
   set_values_in_group [Some field] dataset merged) group n =
  match field_values field group with
  | Ret (VArray t orig) =>
      (Ret tt, set_field field (VArray t (orig ++ astype t new)) group, n)
  | Ret (VScalar _) =>
      (Raise (ValueError "zero-dimensional arrays cannot be concatenated"),
       group, n)
  | Raise e => (Raise e, group, n)
  end.
Proof.
  destruct (field_values field group) as [[t orig|text]|e] eqn:Hfield.
  - apply append_to_field_last, Hfield.
  - revert Hfield. unfold field_values.
    cbv [bind find_in_group self eval].
    destruct (find_nexus_structure group [Some field]) as [d|]; simpl;
      [|discriminate].
    intros ->. reflexivity.
  - revert Hfield. unfold field_values.
    cbv [bind find_in_group self eval].
    destruct (find_nexus_structure group [Some field]) as [d|]; simpl.
    + intros ->. reflexivity.
    + intros [= ->]. reflexivity.
Qed.

(** X8. A message with "pixel_id", merged into a group that holds the four
    ev44 fields, is appended in full, each array converted to the element
    type of the field it joins (float64 for a field that the initializer
    made, which rounds beyond 2^53): [reference_time] to
    "event_time_zero", [time_of_flight] to "event_time_offset",
    [reference_time_index] plus the old length of "event_time_offset", an
    int64 sum, to "event_index", and [pixel_id] to "event_id"; nothing is
    allocated. *)
Theorem merge_with_pixel_id (group : Node) (data_piece : Ev44) (n : nat)
    (tz to ti td : Dtype) (zero offset index ids new_ids : list Z) :
  pixel_id data_piece = Some new_ids ->
  field_values "event_time_zero" group = Ret (VArray tz zero) ->
  field_values "event_time_offset" group = Ret (VArray to offset) ->
  field_values "event_index" group = Ret (VArray ti index) ->
  field_values "event_id" group = Ret (VArray td ids) ->
  exists group',
    _merge_ev44 data_piece group n = (Ret tt, group', n) /\
    field_values "event_time_zero" group' =
      Ret (VArray tz (zero ++ astype tz (reference_time data_piece))) /\
    field_values "event_time_offset" group' =
      Ret (VArray to (offset ++ astype to (time_of_flight data_piece))) /\
    field_values "event_index" group' =
      Ret (VArray ti
             (index ++
              astype ti (np_add (reference_time_index data_piece)
                           (length offset)))) /\
    field_values "event_id" group' =
      Ret (VArray td (ids ++ astype td new_ids)).
Proof.
  intros Hpx Hz Ho Hi Hid.
  destruct (merged_fields_values data_piece _ _ _ _ _ _ _ Hz Ho Hi)
    as (Hz' & Ho' & Hi' & Hid').
  rewrite (merge_ev44_run _ _ _ _ _ _ _ _ _ Hz Ho Hi), Hpx, Hid. cbv zeta.
  eexists. split; [reflexivity|].
  rewrite !field_values_set_field_other by discriminate.
  repeat split; try assumption.
  eapply field_values_set_field. rewrite Hid'. exact Hid.
Qed.

(** X9. The merger is not atomic.  When the message has "pixel_id" and the
    group holds the three unconditional fields but no readable "event_id"
    (a monitor), the merger raises, [KeyError] for a missing dataset, after
    it has appended to the three fields, and the appends stay: each of the
    three arrays is longer by the length of the message's array, and holds
    that array converted to its element type after what it held before. *)
Theorem merge_raises_after_appends (group : Node) (data_piece : Ev44)
    (n : nat) (tz to ti : Dtype) (zero offset index new_ids : list Z)
    (e : Exn) :
  pixel_id data_piece = Some new_ids ->
  field_values "event_time_zero" group = Ret (VArray tz zero) ->
  field_values "event_time_offset" group = Ret (VArray to offset) ->
  field_values "event_index" group = Ret (VArray ti index) ->
  field_values "event_id" group = Raise e ->
  exists group' zero' offset' index',
    _merge_ev44 data_piece group n = (Raise KeyError, group', n) /\
    e = KeyError /\
    field_values "event_time_zero" group' = Ret (VArray tz zero') /\
    field_values "event_time_offset" group' = Ret (VArray to offset') /\
    field_values "event_index" group' = Ret (VArray ti index') /\
    length zero' = length zero + length (reference_time data_piece) /\
    length offset' = length offset + length (time_of_flight data_piece) /\
    length index' =
      length index + length (reference_time_index data_piece) /\
    zero' = zero ++ astype tz (reference_time data_piece) /\
    offset' = offset ++ astype to (time_of_flight data_piece) /\
    index' =
      index ++
      astype ti (np_add (reference_time_index data_piece) (length offset)).
Proof.
  intros Hpx Hz Ho Hi Hid.
  assert (e = KeyError) as ->.
  { revert Hid. unfold field_values.
    destruct (find_nexus_structure group [Some "event_id"]) as [d|e0] eqn:Hf;
      simpl.
    - apply get_array_values_raises.
    - intros [= <-]. eapply find_nexus_structure_raises, Hf. }
  destruct (merged_fields_values data_piece _ _ _ _ _ _ _ Hz Ho Hi)
    as (Hz' & Ho' & Hi' & _).
  rewrite (merge_ev44_run _ _ _ _ _ _ _ _ _ Hz Ho Hi), Hpx, Hid. cbv zeta.
  eexists _, _, _, _. split; [reflexivity|]. split; [reflexivity|].
  split; [exact Hz'|]. split; [exact Ho'|]. split; [exact Hi'|].
  rewrite !length_app, !length_astype, length_np_add.
  repeat split; reflexivity.
Qed.

(** X10. A group without a readable "event_time_zero" array, one that was
    never initialized for instance, makes the merger raise at its first
    step, and the group is left untouched. *)
Theorem merge_into_uninitialized (group : Node) (data_piece : Ev44) (n : nat) :
  (forall t zero,
     field_values "event_time_zero" group <> Ret (VArray t zero)) ->
  exists e,
    _merge_ev44 data_piece group n = (Raise e, group, n) /\
    lookup_or_numpy_error e.
Proof.
  intros Hno. unfold _merge_ev44. cbv zeta.
  rewrite append_block_outcome.
  destruct (field_values "event_time_zero" group) as [[t zero|text]|e] eqn:Hz.
  - exfalso. eapply Hno. reflexivity.
  - eexists. split; [reflexivity|]. right. reflexivity.
  - exists e. split; [reflexivity|]. left.
    revert Hz. unfold field_values.
    destruct (find_nexus_structure group [Some "event_time_zero"])
      as [d|e0] eqn:Hf; simpl.
    + apply get_array_values_raises.
    + intros [= <-]. eapply find_nexus_structure_raises, Hf.
Qed.

Lemma same_but_values_refl (d : Node) : same_but_values d d.
Proof.
  unfold same_but_values. repeat split. destruct (config d); auto.
Qed.

Lemma same_but_values_trans (d1 d2 d3 : Node) :
  same_but_values d1 d2 -> same_but_values d2 d3 -> same_but_values d1 d3.
Proof.
  unfold same_but_values.
  intros (? & ? & ? & ? & ? & H12) (? & ? & ? & ? & ? & H23).
  repeat split; try congruence.
  destruct (config d1), (config d2), (config d3); try tauto.
  destruct H12 as (? & ? & ?), H23 as (? & ? & ?).
  repeat split; congruence.
Qed.

Lemma same_shape_refl (group : Node) : same_shape group group.
Proof.
  unfold same_shape. repeat split.
  destruct (children group) as [cs|]; [|exact I].
  induction cs; constructor; auto using same_but_values_refl.
Qed.

Lemma same_shape_trans (g1 g2 g3 : Node) :
  same_shape g1 g2 -> same_shape g2 g3 -> same_shape g1 g3.
Proof.
  unfold same_shape.
  intros (? & ? & ? & ? & ? & H12) (? & ? & ? & ? & ? & H23).
  repeat split; try congruence.
  destruct (children g1) as [cs1|], (children g2) as [cs2|],
    (children g3) as [cs3|]; try tauto.
  revert cs3 H23. induction H12 as [|d1 d2 l1 l2 Hd Hl IH]; intros cs3 H23.
  - inversion H23. constructor.
  - inversion H23 as [|? d3 ? l3 Hd' Hl']; subst. constructor.
    + eapply same_but_values_trans; eauto.
    + apply IH, Hl'.
Qed.

Lemma set_values_same_but_values (dataset dataset' : Node) (v : Values) :
  _set_values dataset v = Ret dataset' -> same_but_values dataset dataset'.
Proof.
  unfold _set_values, same_but_values.
  destruct dataset as [i nm cs m [c|] a]; simpl; [|discriminate].
  intros [= <-]. simpl. auto 10.
Qed.

Lemma replace_first_same_but_values (head : option string) (d d' : Node)
    (cs : list Node) :
  first_named head cs = Some d -> same_but_values d d' ->
  Forall2 same_but_values cs (replace_first head d' cs).
Proof.
  unfold first_named. intros Hfound Hsame.
  induction cs as [|c rest IH]; simpl in *; [discriminate|].
  destruct (bool_decide (head = _node_name c)).
  - injection Hfound as ->. constructor; [exact Hsame|].
    clear. induction rest; constructor; auto using same_but_values_refl.
  - constructor; [apply same_but_values_refl|auto].
Qed.

Lemma set_field_same_shape (field : string) (v : Values) (group : Node) :
  same_shape group (set_field field v group).
Proof.
  unfold set_field. rewrite find_single.
  destruct (children group) as [cs|] eqn:Hcs; cbn [obind subscript];
    [|apply same_shape_refl].
  destruct (first_named (Some field) cs) as [d|] eqn:Hd;
    [|apply same_shape_refl].
  destruct (_set_values d v) as [d'|] eqn:Hd'; [|apply same_shape_refl].
  rewrite write_single, Hcs. unfold same_shape. simpl. rewrite Hcs.
  repeat split.
  eapply replace_first_same_but_values; eauto using set_values_same_but_values.
Qed.

Create HintDb shape.

#[local] Hint Resolve same_shape_refl set_field_same_shape : shape.

Lemma same_shape_step (g1 g2 : Node) (field : string) (v : Values) :
  same_shape g1 g2 -> same_shape g1 (set_field field v g2).
Proof.
  intros H. eapply same_shape_trans; [exact H|apply set_field_same_shape].
Qed.

#[local] Hint Resolve same_shape_step : shape.

(** X11. Whatever its outcome, the merger changes nothing but value
    arrays: the group keeps its identity and its keys "name", "module",
    "config" and "attributes"; its children keep their number, order,
    identities, names, dtypes and attributes, so no dataset is added,
    removed or renamed; and no dict is allocated. *)
Theorem merge_keeps_shape (data_piece : Ev44) (group : Node) (n : nat)
    (r : Outcome unit) (group' : Node) (n' : nat) :
  _merge_ev44 data_piece group n = (r, group', n') ->
  same_shape group group' /\ n' = n.
Proof.
  unfold _merge_ev44. cbv zeta.
  rewrite append_block_outcome.
  destruct (field_values "event_time_zero" group) as [[? zero|?]|?];
    [|intros [= _ <- <-]; auto with shape..].
  rewrite append_block_outcome.
  destruct (field_values "event_time_offset" _) as [[? offset|?]|?];
    [|intros [= _ <- <-]; auto with shape..].
  rewrite append_block_outcome.
  destruct (field_values "event_index" _) as [[? index|?]|?];
    [|intros [= _ <- <-]; auto with shape..].
  destruct (pixel_id data_piece) as [new_ids|];
    [|intros [= _ <- <-]; auto 10 with shape].
  rewrite append_block_last_outcome.
  destruct (field_values "event_id" _) as [[? ids|?]|?];
    intros [= _ <- <-]; auto 10 with shape.
Qed.

Lemma valid_event_index_app
    (offset index new_offset new_offset' new_index : list Z) :
  length new_offset' = length new_offset ->
  valid_event_index offset index ->
  valid_event_index new_offset new_index ->
  valid_event_index (offset ++ new_offset')
    (index ++ shifted new_index (length offset)).
Proof.
  intros Hsame [Hb Hs] [Hb' Hs']. unfold shifted. split.
  - intros i a Hi. rewrite length_app, Hsame.
    apply lookup_app_Some in Hi as [Hi|[_ Hi]].
    + specialize (Hb _ _ Hi). lia.
    + rewrite list_lookup_fmap in Hi.
      destruct (new_index !! _) as [b|] eqn:Hb0; [|discriminate].
      injection Hi as <-. specialize (Hb' _ _ Hb0). lia.
  - intros i j a b Hij Hi Hj.
    apply lookup_app_Some in Hi as [Hi|[Hlen Hi]];
      apply lookup_app_Some in Hj as [Hj|[Hlen' Hj]].
    + eapply Hs; eauto.
    + rewrite list_lookup_fmap in Hj.
      destruct (new_index !! _) as [b0|] eqn:Hb0; [|discriminate].
      injection Hj as <-.
      specialize (Hb _ _ Hi). specialize (Hb' _ _ Hb0). lia.
    + apply lookup_lt_Some in Hj. lia.
    + rewrite list_lookup_fmap in Hi, Hj.
      destruct (new_index !! (i - _)) as [a0|] eqn:Ha0; [|discriminate].
      destruct (new_index !! (j - _)) as [b0|] eqn:Hb0; [|discriminate].
      injection Hi as <-. injection Hj as <-.
      assert (a0 <= b0)%Z by (eapply (Hs' (i - length index)
                                         (j - length index)); eauto; lia).
      lia.
Qed.

(** X12. The merger keeps "event_index" a valid index into
    "event_time_offset".  If the entries of "event_index" lie between 0 and
    the length of "event_time_offset" and do not decrease, and the message
    is such a batch itself ([reference_time_index] against
    [time_of_flight]), then the same holds of the two arrays after the
    merge, whatever their element types, as long as the merged
    "event_time_offset" has no more than 2^53 elements. *)
Theorem merge_keeps_event_index_valid (group : Node) (data_piece : Ev44)
    (n : nat) (tz to ti : Dtype) (zero offset index : list Z) :
  field_values "event_time_zero" group = Ret (VArray tz zero) ->
  field_values "event_time_offset" group = Ret (VArray to offset) ->
  field_values "event_index" group = Ret (VArray ti index) ->
  pixel_id data_piece = None \/
    (exists td ids, field_values "event_id" group = Ret (VArray td ids)) ->
  valid_event_index offset index ->
  valid_event_index (time_of_flight data_piece)
    (reference_time_index data_piece) ->
  (Z.of_nat (length offset + length (time_of_flight data_piece)) <= 2 ^ 53)%Z ->
  exists group' offset' index',
    _merge_ev44 data_piece group n = (Ret tt, group', n) /\
    field_values "event_time_offset" group' = Ret (VArray to offset') /\
    field_values "event_index" group' = Ret (VArray ti index') /\
    valid_event_index offset' index'.
Proof.
  intros Hz Ho Hi Hpx Hvalid Hbatch Hsize.
  destruct (merge_ev44_appends data_piece group n _ _ _ _ _ _ Hz Ho Hi Hpx)
    as (group' & Hrun & _ & Ho' & Hi').
  eexists group', _, _. split; [exact Hrun|]. split; [exact Ho'|].
  split; [exact Hi'|].
  rewrite stored_index_exact.
  - eapply valid_event_index_app; [apply length_astype|assumption..].
  - unfold float64_exact, shifted. apply Forall_forall.
    intros a Ha. apply list_elem_of_fmap in Ha as (i & -> & Hin).
    apply list_elem_of_lookup in Hin as [k Hk].
    pose proof (proj1 Hbatch _ _ Hk). lia.
Qed.

(** X25. Write, then read.  [_set_values] raises [KeyError] exactly when
    the dataset has no "config"; otherwise [_get_array_values] on the
    dataset reads the values just written, whatever it held before, and
    the name of the dataset, by which [find_nexus_structure] finds it, is
    unchanged. *)
Theorem set_then_get_values (dataset : Node) (v : Values) :
  (config dataset = None -> _set_values dataset v = Raise KeyError) /\
  (is_Some (config dataset) ->
   exists dataset',
     _set_values dataset v = Ret dataset' /\
     _get_array_values dataset' = Ret v /\
     _node_name dataset' = _node_name dataset /\
     oid dataset' = oid dataset).
Proof.
  unfold _set_values. split.
  - intros ->. reflexivity.
  - intros [c Hc]. rewrite Hc. simpl. eexists. split; [reflexivity|].
    unfold _get_array_values, _node_name. simpl. rewrite Hc.
    destruct (name dataset); auto.
Qed.

(** ** The bridge *)

(** X13. Whatever the kind and whatever the outcome of the call, also when
    it raises, an entry of the store is created or changed only at a path
    that the message matches: every other path of the store reads as
    before. *)
Theorem unmatched_paths_untouched (structure : Node) (kind : string)
    (data_piece : Ev44) (store store' : NexusGroupDictStore) (n n' : nat)
    (r : Outcome unit) (other : NexusPath) :
  merge_message_into_data_module_store structure kind data_piece store n =
    (r, store', n') ->
  other ∉ find_ev44_matching_paths structure data_piece ->
  store' !! other = store !! other.
Proof.
  unfold merge_message_into_data_module_store.
  destruct (bool_decide (kind = "ev44")).
  - intros Hrun Hnotin. eapply for_each_frame; [exact Hnotin|exact Hrun].
  - intros [= _ <- _] _. reflexivity.
Qed.

Lemma on_entry_keeps {A} (path other : NexusPath) (m : Py Node A)
    (store store' : NexusGroupDictStore) (n n' : nat) (r : Outcome A) :
  on_entry path m store n = (r, store', n') ->
  is_Some (store !! other) -> is_Some (store' !! other).
Proof.
  unfold on_entry. destruct (store !! path) as [group|] eqn:Hs.
  - destruct (m group n) as [[r0 group'] n0]. intros [= _ <- _] Hsome.
    destruct (decide (path = other)) as [->|Hne].
    + rewrite lookup_insert_eq. eauto.
    + rewrite lookup_insert_ne by exact Hne. exact Hsome.
  - intros [= _ <- _]. auto.
Qed.

Lemma merge_into_path_keeps (structure : Node) (data_piece : Ev44)
    (init : Py Node unit) (merge : Ev44 -> Py Node unit)
    (path other : NexusPath) (store store' : NexusGroupDictStore)
    (n n' : nat) (r : Outcome unit) :
  merge_into_path structure data_piece init merge path store n =
    (r, store', n') ->
  is_Some (store !! other) -> is_Some (store' !! other).
Proof.
  intros Hrun Hsome. revert Hrun.
  cbv [merge_into_path try_except_KeyError].
  destruct (on_entry path (merge data_piece) store n)
    as [[r0 store0] n0] eqn:Efirst.
  pose proof (on_entry_keeps _ _ _ _ _ _ _ _ Efirst Hsome) as Hfirst.
  assert (Hhandler :
    (parent <- eval (find_parent structure path) ;;
     parent_children <- eval (subscript (children parent)) ;;
     if bool_decide (1 < length parent_children)
     then raise multiple_modules
     else
       new_oid <- fresh ;;
       mutate (insert path
                 (with_children (shallow_copy new_oid parent) (Some []))) ;;;
       on_entry path init ;;;
       on_entry path (merge data_piece)) store0 n0 = (r, store', n') ->
    is_Some (store' !! other)).
  { cbv [bind eval raise fresh mutate].
    destruct (find_parent structure path) as [parent|e];
      [|intros [= _ <- _]; exact Hfirst].
    destruct (subscript (children parent)) as [siblings|e];
      [|intros [= _ <- _]; exact Hfirst].
    destruct (bool_decide (1 < length siblings));
      [intros [= _ <- _]; exact Hfirst|].
    match goal with
    | |- context [on_entry path init ?s ?m] =>
        destruct (on_entry path init s m) as [[r1 store1] n1] eqn:Einit;
        assert (Hins : is_Some (s !! other))
    end.
    { destruct (decide (path = other)) as [->|Hne].
      - rewrite lookup_insert_eq. eauto.
      - rewrite lookup_insert_ne by exact Hne. exact Hfirst. }
    pose proof (on_entry_keeps _ _ _ _ _ _ _ _ Einit Hins) as Hinit.
    destruct r1 as [[]|e].
    - intros Hmerge. eapply on_entry_keeps; eauto.
    - intros [= _ <- _]. exact Hinit. }
  destruct r0 as [[]|[]]; try (intros [= _ <- _]; exact Hfirst).
  exact Hhandler.
Qed.

Lemma for_each_keeps (structure : Node) (data_piece : Ev44)
    (init : Py Node unit) (merge : Ev44 -> Py Node unit)
    (paths : list NexusPath) (other : NexusPath) :
  forall (store store' : NexusGroupDictStore) (n n' : nat) (r : Outcome unit),
    for_each paths (merge_into_path structure data_piece init merge) store n =
      (r, store', n') ->
    is_Some (store !! other) -> is_Some (store' !! other).
Proof.
  induction paths as [|path paths IH]; intros store store' n n' r.
  - intros [= _ <- _]. auto.
  - simpl. unfold bind at 1.
    destruct (merge_into_path _ _ _ _ path store n)
      as [[[[]|e] store0] n0] eqn:Estep.
    + intros Hrest Hsome. eapply IH; [exact Hrest|].
      eapply merge_into_path_keeps; eauto.
    + intros [= _ <- _] Hsome. eapply merge_into_path_keeps; eauto.
Qed.

(** X14. The bridge never removes an entry: whatever the kind and the
    outcome of the call, every path that has an entry before the call has
    one after it. *)
Theorem entries_are_kept (structure : Node) (kind : string)
    (data_piece : Ev44) (store store' : NexusGroupDictStore) (n n' : nat)
    (r : Outcome unit) (path : NexusPath) :
  merge_message_into_data_module_store structure kind data_piece store n =
    (r, store', n') ->
  is_Some (store !! path) -> is_Some (store' !! path).
Proof.
  unfold merge_message_into_data_module_store.
  destruct (bool_decide (kind = "ev44")).
  - apply for_each_keeps.
  - intros [= _ <- _]. auto.
Qed.


Lemma on_entry_raises_any {A} (P : Exn -> Prop) (path : NexusPath)
    (m : Py Node A) (store store' : NexusGroupDictStore) (n n' : nat)
    (e : Exn) :
  raises_within P m -> P KeyError ->
  on_entry path m store n = (Raise e, store', n') -> P e.
Proof.
  intros Hm Hkey. unfold on_entry. destruct (store !! path) as [group|].
  - destruct (m group n) as [[r group'] n0] eqn:Em.
    intros [= -> _ _]. eapply Hm, Em.
  - intros [= <- _ _]. exact Hkey.
Qed.

(** The exceptions of one step of the ev44 bridge. *)
Lemma merge_ev44_into_path_raises (structure : Node) (data_piece : Ev44)
    (path : NexusPath) (store store' : NexusGroupDictStore) (n n' : nat)
    (e : Exn) :
  merge_ev44_into_path structure data_piece path store n =
    (Raise e, store', n') ->
  lookup_or_numpy_error e \/ e = multiple_modules.
Proof.
  assert (Hkey : lookup_or_numpy_error KeyError) by (left; reflexivity).
  cbv [merge_ev44_into_path merge_into_path try_except_KeyError].
  destruct (on_entry path (_merge_ev44 data_piece) store n)
    as [[r0 store0] n0] eqn:Efirst.
  assert (Hhandler :
    (parent <- eval (find_parent structure path) ;;
     parent_children <- eval (subscript (children parent)) ;;
     if bool_decide (1 < length parent_children)
     then raise multiple_modules
     else
       new_oid <- fresh ;;
       mutate (insert path
                 (with_children (shallow_copy new_oid parent) (Some []))) ;;;
       on_entry path _initialize_ev44 ;;;
       on_entry path (_merge_ev44 data_piece)) store0 n0 =
      (Raise e, store', n') ->
    lookup_or_numpy_error e \/ e = multiple_modules).
  { cbv [bind eval raise fresh mutate].
    destruct (find_parent structure path) as [parent|e0] eqn:Hp.
    2:{ intros [= <- _ _]. left. left.
        eapply find_nexus_structure_raises, Hp. }
    destruct (subscript (children parent)) as [siblings|e0] eqn:Hcs.
    2:{ intros [= <- _ _]. left. left. eapply subscript_raises, Hcs. }
    destruct (bool_decide (1 < length siblings));
      [intros [= <- _ _]; right; reflexivity|].
    match goal with
    | |- context [on_entry path _initialize_ev44 ?s ?m] =>
        destruct (on_entry path _initialize_ev44 s m)
          as [[[[]|e1] store1] n1] eqn:Einit
    end.
    - intros Hmerge. left.
      eapply on_entry_raises_any;
        [apply merge_ev44_raises|exact Hkey|exact Hmerge].
    - intros [= <- _ _]. left.
      eapply on_entry_raises_any;
        [apply initialize_ev44_raises|exact Hkey|exact Einit]. }
  destruct r0 as [[]|e0]; [discriminate|].
  assert (He0 : lookup_or_numpy_error e0)
    by (eapply on_entry_raises_any;
        [apply merge_ev44_raises|exact Hkey|exact Efirst]).
  destruct e0; try exact Hhandler; intros [= <- _ _]; left; exact He0.
Qed.

(** X16. The exceptions of [merge_message_into_data_module_store].  A kind
    other than "ev44" raises [NotImplementedError] without looking at the
    template or the message, and leaves the store as it was.  For "ev44"
    the call raises nothing but [KeyError], the [ValueError] of numpy's
    concatenation, or the multiple-modules [ValueError]. *)
Theorem merge_message_raises (structure : Node) (kind : string)
    (data_piece : Ev44) (store : NexusGroupDictStore) (n : nat) :
  (kind <> "ev44" ->
   merge_message_into_data_module_store structure kind data_piece store n =
     (Raise NotImplementedError, store, n)) /\
  (kind = "ev44" ->
   forall (e : Exn) (store' : NexusGroupDictStore) (n' : nat),
     merge_message_into_data_module_store structure kind data_piece store n =
       (Raise e, store', n') ->
     lookup_or_numpy_error e \/ e = multiple_modules).
Proof.
  unfold merge_message_into_data_module_store. split.
  - intros Hkind. rewrite bool_decide_eq_false_2 by exact Hkind. reflexivity.
  - intros Hkind e store' n'.
    rewrite bool_decide_eq_true_2 by exact Hkind. intros Hrun.
    destruct (for_each_raises _ _ _ _ _ _ _ Hrun)
      as (done & path & rest & store1 & n1 & _ & _ & Hstep).
    eapply merge_ev44_into_path_raises, Hstep.
Qed.

(** ** The combiner on any store *)

Lemma strip_head_foldr_lookup (child_name : option string)
    (items : list (NexusPath * Node)) (sub : NexusGroupDictStore) :
  foldr (fun (item : NexusPath * Node) rest =>
           match item.1 with
           | [] => Raise unpack_error
           | head :: tail =>
               sub <-? rest ;;
               Ret (if bool_decide (head = child_name)
                    then <[tail := item.2]> sub
                    else sub)
           end)
        (Ret ∅) items = Ret sub ->
  forall tail,
    sub !! tail = (list_to_map items : NexusGroupDictStore) !! (child_name :: tail).
Proof.
  revert sub. induction items as [|[key group] items IH]; intros sub; simpl.
  - intros [= <-] tail. rewrite !lookup_empty. reflexivity.
  - destruct key as [|head key]; [discriminate|].
    destruct (foldr _ _ items) as [sub0|] eqn:Hrest; [|discriminate].
    simpl. intros [= <-] tail. specialize (IH sub0 eq_refl tail).
    destruct (bool_decide (head = child_name)) eqn:Hhead.
    + apply bool_decide_eq_true in Hhead. subst head.
      destruct (decide (key = tail)) as [->|Hne].
      * rewrite !lookup_insert_eq. reflexivity.
      * rewrite !lookup_insert_ne by congruence. exact IH.
    + apply bool_decide_eq_false in Hhead.
      rewrite lookup_insert_ne by congruence. exact IH.
Qed.

(** The dict comprehension keeps the entries below the child's name. *)
Lemma strip_head_lookup (child_name : option string)
    (store sub : NexusGroupDictStore) :
  strip_head child_name store = Ret sub ->
  forall tail, sub !! tail = store !! (child_name :: tail).
Proof.
  intros Hsub tail.
  rewrite (strip_head_foldr_lookup child_name _ _ Hsub tail).
  rewrite list_to_map_to_list. reflexivity.
Qed.

(** An empty key makes the dict comprehension raise. *)
Lemma strip_head_raises (child_name : option string)
    (store : NexusGroupDictStore) (group : Node) :
  store !! [] = Some group ->
  strip_head child_name store = Raise unpack_error.
Proof.
  intros Hs. apply elem_of_map_to_list in Hs. unfold strip_head.
  induction (map_to_list store) as [|[key g] items IH]; [inversion Hs|].
  simpl. destruct key as [|head key]; [reflexivity|].
  apply elem_of_cons in Hs as [Heq|Hs]; [discriminate|].
  rewrite (IH Hs). reflexivity.
Qed.

Lemma combine_children_length (store : NexusGroupDictStore) (cs : list Node) :
  forall (acc : list Node) (n : nat) (out : list Node) (n' : nat),
    combine_children store cs acc tt n = (Ret out, tt, n') ->
    length out = length acc + length cs.
Proof.
  induction cs as [|child rest IH]; intros acc n out n'.
  - intros [= <- _]. simpl. lia.
  - rewrite combine_children_cons. cbv [bind eval].
    destruct (strip_head _ store) as [sub|e]; [|discriminate].
    destruct (combine_data_module_store_and_structure sub child tt n)
      as [[[c|e] []] m]; [|discriminate].
    intros Hrest. rewrite (IH _ _ _ _ Hrest), length_app. simpl. lia.
Qed.

(** X17. A store that has the empty path as a key, and no key for a
    nameless place holder of the root, makes the combiner raise the
    [ValueError] of the failed unpacking as soon as the structure has a
    child; the dict for the root has been allocated by then. *)
Theorem combine_empty_key_raises (store : NexusGroupDictStore)
    (structure group child : Node) (rest : list Node) (n : nat) :
  store !! [] = Some group ->
  store !! [None] = None ->
  children structure = Some (child :: rest) ->
  combine_data_module_store_and_structure store structure tt n =
  (Raise unpack_error, tt, S n).
Proof.
  intros Hempty Hnone Hcs. rewrite combine_unfold.
  rewrite bool_decide_eq_false_2.
  2:{ intros Hsize. apply map_size_empty_inv in Hsize. subst store.
      rewrite lookup_empty in Hempty. discriminate. }
  rewrite Hnone. cbv [bind fresh]. cbv zeta. rewrite Hcs.
  rewrite combine_children_cons. cbv [bind eval].
  rewrite (strip_head_raises _ _ _ Hempty). reflexivity.
Qed.

(** What the combiner does at a position below ancestors that no entry
    replaces: it runs on the node there, with the entries of the store
    below the path of the node. *)
Lemma combine_at_position (position : list nat) :
  forall (store : NexusGroupDictStore) (template : Node) (n : nat)
         (result : Node) (n' : nat) (names : NexusPath) (node : Node),
    combine_data_module_store_and_structure store template tt n =
      (Ret result, tt, n') ->
    descend template position = Some node ->
    names_along template position = Some names ->
    (forall q rest,
       names = q ++ rest -> rest <> [] -> store !! (q ++ [None]) = None) ->
    exists (sub : NexusGroupDictStore) (m : nat) (result_here : Node)
           (m' : nat),
      (forall k, sub !! k = store !! (names ++ k)) /\
      combine_data_module_store_and_structure sub node tt m =
        (Ret result_here, tt, m') /\
      descend result position = Some result_here /\
      n <= m /\ m' <= n'.
Proof.
  induction position as [|i position IH];
    intros store template n result n' names node Hrun Hd Hn Hanc.
  - injection Hd as <-. injection Hn as <-.
    exists store, n, result, n'. simpl. auto.
  - apply names_along_cons in Hn as (cs & child & names' & Hcs & Hi & Hn & ->).
    simpl in Hd. rewrite Hcs, Hi in Hd.
    rewrite combine_unfold in Hrun.
    destruct (bool_decide (size store = 0)) eqn:Hsize.
    + apply bool_decide_eq_true, map_size_empty_inv in Hsize. subst store.
      injection Hrun as <- <-.
      exists ∅, n, node, n. split; [intros k; rewrite !lookup_empty; auto|].
      split; [apply combine_empty|]. split; [|lia].
      simpl. rewrite Hcs, Hi. exact Hd.
    + assert (Hroot : store !! [None] = None)
        by (apply (Hanc [] (_node_name child :: names') eq_refl);
            discriminate).
      rewrite Hroot in Hrun.
      cbv [bind fresh ret] in Hrun. cbv zeta in Hrun. rewrite Hcs in Hrun.
      destruct (combine_children store cs [] tt (S n))
        as [[[out|e] []] m0] eqn:El; [|discriminate].
      injection Hrun as <- <-.
      destruct (combine_children_lookup _ _ _ _ _ _ El) as (Hle & _ & Hlookup).
      destruct (Hlookup i child Hi)
        as (sub & ni & combined & ni' & Hsub & Hc & Hn1 & Hn2 & Hout).
      simpl in Hout.
      pose proof (strip_head_lookup _ _ _ Hsub) as Hsubl.
      destruct (IH sub child ni combined ni' names' node Hc Hd Hn)
        as (sub' & m & here & m' & Hsub' & Hhere & Hdesc & Hm1 & Hm2).
      { intros q rest -> Hrest. rewrite Hsubl.
        apply (Hanc (_node_name child :: q) rest); auto. }
      exists sub', m, here, m'. split.
      { intros k. rewrite Hsub', Hsubl. reflexivity. }
      split; [exact Hhere|]. split; [|lia].
      simpl. rewrite Hout. exact Hdesc.
Qed.

(** X18. Sharing, for any store.  A node of the template below whose path
    the store has no key, and none of whose ancestors is replaced by an
    entry (no key is the path of an ancestor followed by a nameless place
    holder), is in the result, at the same position, the identical
    template object. *)
Theorem combine_shares_untouched (store : NexusGroupDictStore)
    (template : Node) (n : nat) (result : Node) (n' : nat)
    (position : list nat) (names : NexusPath) (node : Node) :
  combine_data_module_store_and_structure store template tt n =
    (Ret result, tt, n') ->
  descend template position = Some node ->
  names_along template position = Some names ->
  (forall q rest,
     names = q ++ rest -> rest <> [] -> store !! (q ++ [None]) = None) ->
  (forall k, store !! (names ++ k) = None) ->
  descend result position = Some node.
Proof.
  intros Hrun Hd Hn Hanc Hnone.
  destruct (combine_at_position _ _ _ _ _ _ _ _ Hrun Hd Hn Hanc)
    as (sub & m & here & m' & Hsub & Hhere & Hdesc & _ & _).
  assert (sub = ∅) as ->
    by (apply map_empty; intros k; rewrite Hsub; apply Hnone).
  rewrite combine_empty in Hhere. injection Hhere as <- _. exact Hdesc.
Qed.

(** X19. Overlay, for any store.  Where the store has an entry for a
    nameless place holder of a node, the entry stands in the result in the
    place of that node: it is the stored group itself, not a copy, and
    nothing of the template's node or of the store's entries below it is
    kept.  (The ancestors of the node must not be replaced
    themselves.) *)
Theorem combine_places_entry (store : NexusGroupDictStore)
    (template : Node) (n : nat) (result : Node) (n' : nat)
    (position : list nat) (names : NexusPath) (node group : Node) :
  combine_data_module_store_and_structure store template tt n =
    (Ret result, tt, n') ->
  descend template position = Some node ->
  names_along template position = Some names ->
  (forall q rest,
     names = q ++ rest -> rest <> [] -> store !! (q ++ [None]) = None) ->
  store !! (names ++ [None]) = Some group ->
  descend result position = Some group.
Proof.
  intros Hrun Hd Hn Hanc Hentry.
  destruct (combine_at_position _ _ _ _ _ _ _ _ Hrun Hd Hn Hanc)
    as (sub & m & here & m' & Hsub & Hhere & Hdesc & _ & _).
  rewrite combine_unfold in Hhere.
  rewrite bool_decide_eq_false_2 in Hhere.
  2:{ intros Hsize. apply map_size_empty_inv in Hsize. subst sub.
      specialize (Hsub [None]). rewrite lookup_empty, Hentry in Hsub.
      discriminate. }
  rewrite Hsub, Hentry in Hhere. injection Hhere as <- _. exact Hdesc.
Qed.

(** X20. Rebuilding, for any store.  A node of the template below whose
    path the store has some key, but no entry for a nameless place holder
    of the node itself or of an ancestor, is replaced in the result by a
    dict allocated during the call that has the node's "name", "module",
    "config" and "attributes" and as many children as the node. *)
Theorem combine_rebuilds_touched (store : NexusGroupDictStore)
    (template : Node) (n : nat) (result : Node) (n' : nat)
    (position : list nat) (names : NexusPath) (node : Node)
    (key : NexusPath) (group : Node) :
  combine_data_module_store_and_structure store template tt n =
    (Ret result, tt, n') ->
  descend template position = Some node ->
  names_along template position = Some names ->
  (forall q rest,
     names = q ++ rest -> rest <> [] -> store !! (q ++ [None]) = None) ->
  store !! (names ++ [None]) = None ->
  store !! (names ++ key) = Some group ->
  exists built,
    descend result position = Some built /\
    n <= oid built < n' /\
    name built = name node /\ module built = module node /\
    config built = config node /\ attributes built = attributes node /\
    length <$> children built = length <$> children node.
Proof.
  intros Hrun Hd Hn Hanc Hnone Hkey.
  destruct (combine_at_position _ _ _ _ _ _ _ _ Hrun Hd Hn Hanc)
    as (sub & m & here & m' & Hsub & Hhere & Hdesc & Hm1 & Hm2).
  rewrite combine_unfold in Hhere.
  rewrite bool_decide_eq_false_2 in Hhere.
  2:{ intros Hsize. apply map_size_empty_inv in Hsize. subst sub.
      specialize (Hsub key). rewrite lookup_empty, Hkey in Hsub.
      discriminate. }
  rewrite Hsub, Hnone in Hhere.
  cbv [bind fresh ret] in Hhere. cbv zeta in Hhere.
  destruct (children node) as [cs|] eqn:Hcs.
  - destruct (combine_children sub cs [] tt (S m)) as [[[out|e] []] m0] eqn:El;
      [|discriminate].
    injection Hhere as <- <-.
    pose proof (combine_children_length _ _ _ _ _ _ El) as Hlen.
    destruct (combine_children_lookup _ _ _ _ _ _ El) as (Hle & _ & _).
    eexists. split; [exact Hdesc|]. simpl. rewrite Hlen.
    repeat split; lia.
  - injection Hhere as <- <-. eexists. split; [exact Hdesc|]. simpl.
    rewrite Hcs. repeat split; lia.
Qed.

(** X21. An entry that the store holds under the path of a node itself,
    as it does when the place holder carries a name, never reaches the
    snapshot: where that node has no children, the result holds a new copy
    of the template's node in its place, not the stored group. *)
Theorem combine_drops_named_entry (store : NexusGroupDictStore)
    (template : Node) (n : nat) (result : Node) (n' : nat)
    (position : list nat) (names : NexusPath) (node group : Node) :
  combine_data_module_store_and_structure store template tt n =
    (Ret result, tt, n') ->
  descend template position = Some node ->
  names_along template position = Some names ->
  (forall q rest,
     names = q ++ rest -> rest <> [] -> store !! (q ++ [None]) = None) ->
  store !! (names ++ [None]) = None ->
  store !! names = Some group ->
  children node = None ->
  exists new_oid,
    descend result position = Some (shallow_copy new_oid node) /\
    n <= new_oid < n'.
Proof.
  intros Hrun Hd Hn Hanc Hnone Hkey Hcs.
  destruct (combine_at_position _ _ _ _ _ _ _ _ Hrun Hd Hn Hanc)
    as (sub & m & here & m' & Hsub & Hhere & Hdesc & Hm1 & Hm2).
  rewrite combine_unfold in Hhere.
  rewrite bool_decide_eq_false_2 in Hhere.
  2:{ intros Hsize. apply map_size_empty_inv in Hsize. subst sub.
      specialize (Hsub []). rewrite lookup_empty, app_nil_r, Hkey in Hsub.
      discriminate. }
  rewrite Hsub, Hnone in Hhere.
  cbv [bind fresh ret] in Hhere. cbv zeta in Hhere. rewrite Hcs in Hhere.
  injection Hhere as <- <-. exists m. split; [exact Hdesc|lia].
Qed.

Lemma strip_head_raise_is (child_name : option string)
    (store : NexusGroupDictStore) (e : Exn) :
  strip_head child_name store = Raise e -> e = unpack_error.
Proof.
  unfold strip_head.
  induction (map_to_list store) as [|[key g] items IH]; simpl; [discriminate|].
  destruct key as [|head key]; [intros [= <-]; reflexivity|].
  destruct (foldr _ _ items) as [sub|e0]; simpl; [discriminate|].
  intros [= <-]. apply IH. reflexivity.
Qed.

Lemma strip_head_returns (child_name : option string)
    (store : NexusGroupDictStore) :
  store !! [] = None ->
  exists sub, strip_head child_name store = Ret sub.
Proof.
  intros Hs. unfold strip_head.
  assert (Hkeys : forall item, item ∈ map_to_list store -> item.1 <> []).
  { intros [key g] Hin Heq. simpl in Heq. subst key.
    apply elem_of_map_to_list in Hin. congruence. }
  induction (map_to_list store) as [|[key g] items IH]; simpl; [eauto|].
  destruct key as [|head key].
  - exfalso. apply (Hkeys ([], g)); [apply list_elem_of_here|reflexivity].
  - destruct IH as [sub ->];
      [intros item Hin; apply Hkeys, list_elem_of_further, Hin|].
    simpl. eauto.
Qed.

(** X22. The combiner raises nothing but the [ValueError] of the failed
    unpacking of an empty key; it never raises [KeyError]. *)
Theorem combine_raises_unpack_only (structure : Node) :
  forall (store : NexusGroupDictStore) (n : nat) (e : Exn) (n' : nat),
    combine_data_module_store_and_structure store structure tt n =
      (Raise e, tt, n') ->
    e = unpack_error.
Proof.
  induction structure as [structure IH] using Node_children_ind.
  intros store n e n'. rewrite combine_unfold.
  destruct (bool_decide (size store = 0)); [discriminate|].
  destruct (store !! [None]); [discriminate|].
  cbv [bind fresh ret]. cbv zeta.
  destruct (children structure) as [cs|]; [|discriminate].
  specialize (IH cs eq_refl).
  assert (Hloop : forall acc m e1 m',
             combine_children store cs acc tt m = (Raise e1, tt, m') ->
             e1 = unpack_error).
  { induction cs as [|child rest IHrest]; intros acc m e1 m'; [discriminate|].
    apply Forall_cons in IH as [IHchild IH].
    rewrite combine_children_cons. cbv [bind eval].
    destruct (strip_head _ store) as [sub|e0] eqn:Hsub.
    - destruct (combine_data_module_store_and_structure sub child tt m)
        as [[[c|e0] []] m1] eqn:Ec.
      + apply IHrest, IH.
      + intros [= <- _]. eapply IHchild, Ec.
    - intros [= <- _]. eapply strip_head_raise_is, Hsub. }
  destruct (combine_children store cs [] tt (S n)) as [[[out|e0] []] m] eqn:El;
    [discriminate|].
  intros [= <- _]. eapply Hloop, El.
Qed.

(** X23. The combiner returns on every store whose keys all end in the
    nameless place holder, the keys that the bridge makes for place
    holders without a name. *)
Theorem combine_returns_on_placeholder_keys (structure : Node) :
  forall (store : NexusGroupDictStore) (n : nat),
    (forall key group, store !! key = Some group -> last key = Some None) ->
    exists result n',
      combine_data_module_store_and_structure store structure tt n =
        (Ret result, tt, n').
Proof.
  induction structure as [structure IH] using Node_children_ind.
  intros store n Hkeys. rewrite combine_unfold.
  destruct (bool_decide (size store = 0)); [eauto|].
  destruct (store !! [None]) as [g|] eqn:Hnone; [eauto|].
  cbv [bind fresh ret]. cbv zeta.
  destruct (children structure) as [cs|]; [|eauto].
  specialize (IH cs eq_refl).
  assert (Hempty : store !! [] = None).
  { destruct (store !! []) as [g|] eqn:Hs; [|reflexivity].
    apply Hkeys in Hs. discriminate. }
  assert (Hloop : forall acc m, exists out m',
             combine_children store cs acc tt m = (Ret out, tt, m')).
  { induction cs as [|child rest IHrest]; intros acc m.
    - eexists _, _. reflexivity.
    - apply Forall_cons in IH as [IHchild IH].
      rewrite combine_children_cons. cbv [bind eval].
      destruct (strip_head_returns (_node_name child) store Hempty)
        as [sub Hsub].
      rewrite Hsub.
      destruct (IHchild sub m) as (c & m1 & ->).
      { intros key g Hs. rewrite (strip_head_lookup _ _ _ Hsub) in Hs.
        destruct key as [|k key].
        - exfalso. pose proof (Hkeys _ _ Hs) as Hlast. simpl in Hlast.
          injection Hlast as Hlast. rewrite Hlast in Hs. congruence.
        - apply Hkeys in Hs. exact Hs. }
      apply IHrest, IH. }
  destruct (Hloop [] (S n)) as (out & m' & ->). eauto.
Qed.

Lemma names_along_descend (position : list nat) :
  forall (tree : Node) (names : NexusPath),
    names_along tree position = Some names ->
    exists node, descend tree position = Some node.
Proof.
  induction position as [|i position IH]; intros tree names Hn.
  - simpl. eauto.
  - apply names_along_cons in Hn as (cs & child & names' & Hcs & Hi & Hn & _).
    simpl. rewrite Hcs, Hi. eapply IH, Hn.
Qed.

(** X24. Merge, then combine.  The first message for a single well-formed
    target whose place holder has no name, merged into an empty store and
    combined with the template, shows in the snapshot: at every position
    whose names spell the path of the group that holds the place holder,
    the snapshot has the new entry, and its fields hold the arrays of the
    message, converted to float64. *)
Theorem merged_message_in_snapshot (template : Node) (data_piece : Ev44)
    (names : NexusPath) (position : list nat) (n : nat) :
  find_ev44_matching_paths template data_piece = [names ++ [None]] ->
  well_formed_target template data_piece (names ++ [None]) ->
  names_along template position = Some names ->
  exists store n1 result n2 group,
    merge_message_into_data_module_store template "ev44" data_piece ∅ n =
      (Ret tt, store, n1) /\
    combine_data_module_store_and_structure store template tt n1 =
      (Ret result, tt, n2) /\
    descend result position = Some group /\
    store !! (names ++ [None]) = Some group /\
    holds_batch data_piece group.
Proof.
  intros Hpaths (parent & siblings & Hp & Hcs & Hlen & Hname & Hpx) Hn.
  rewrite merge_message_ev44, Hpaths, for_each_cons.
  rewrite (merge_into_path_first _ _ _ _ _ _ _ (lookup_empty _)
             Hp Hcs Hlen Hname Hpx).
  rewrite insert_empty.
  destruct (combine_single_returns (first_entry parent data_piece n) template
              (names ++ [None]) (n + first_entry_size parent))
    as (result & n2 & Hrun).
  { rewrite last_snoc. reflexivity. }
  eexists _, _, result, n2, _. split; [reflexivity|].
  split; [exact Hrun|].
  split; [eapply combine_single_overlay; eauto|].
  split; [apply lookup_singleton_eq|apply first_entry_holds_batch].
Qed.

(** ** The further properties on concrete inputs *)

Lemma example_template_unique : unique_sibling_names example_template.
Proof.
  simpl. repeat split; refine (bool_decide_unpack _ _); vm_compute; exact I.
Defined.

Lemma detector_placeholder_yielded :
  (detector_path, placeholder 3 "bankA") ∈
    iter_nexus_structure example_template None.
Proof.
  apply iter_root_positions. exists [0; 0]. split; reflexivity.
Defined.

Lemma find_is_yielded_witness :
  (detector_path, placeholder 3 "bankA") ∈
    iter_nexus_structure example_template None.
Proof.
  apply (find_is_yielded example_template detector_path
           (placeholder 3 "bankA")).
  reflexivity.
Defined.

Lemma traversal_yields_positions_witness :
  exists position,
    descend example_template position = Some (placeholder 3 "bankA") /\
    names_along example_template position = Some detector_path.
Proof.
  apply (proj1 (traversal_yields_positions example_template detector_path
                  (placeholder 3 "bankA"))).
  apply detector_placeholder_yielded.
Defined.

Lemma traversal_paths_distinct_witness :
  NoDup ((iter_nexus_structure example_template None).*1).
Proof.
  apply (traversal_paths_distinct example_template example_template_unique).
Defined.

Lemma find_fails_iff_not_yielded_witness :
  [Some "nowhere"] ∉ (iter_nexus_structure example_template None).*1 <->
  find_nexus_structure example_template [Some "nowhere"] = Raise KeyError.
Proof.
  apply (proj2 (find_fails_iff_not_yielded example_template [Some "nowhere"])
           example_template_unique).
Defined.

Lemma find_parent_holds_child_witness :
  exists parent cs,
    find_parent example_template detector_path = Ret parent /\
    children parent = Some cs /\
    placeholder 3 "bankA" ∈ cs /\
    (removelast detector_path, parent) ∈
      iter_nexus_structure example_template None.
Proof.
  apply (find_parent_holds_child example_template detector_path
           (placeholder 3 "bankA") example_template_unique
           detector_placeholder_yielded).
  discriminate.
Defined.

Lemma matching_paths_resolve_witness :
  NoDup (find_ev44_matching_paths example_template batch_A) /\
  forall path,
    path ∈ find_ev44_matching_paths example_template batch_A <->
    exists node,
      find_nexus_structure example_template path = Ret node /\
      module node = Some "ev44" /\
      match config node with
      | Some c => source c
      | None => None
      end = Some (source_name batch_A).
Proof.
  apply (matching_paths_resolve example_template batch_A
           example_template_unique).
Defined.

Lemma initialize_without_name_witness :
  _initialize_ev44 nameless_group 11 =
  (Raise KeyError,
   with_children nameless_group
     (Some (default [] (children nameless_group) ++
            [ev44_dataset 11 "event_time_zero" (Some "ns") [];
             ev44_dataset (11 + 1) "event_time_offset" (Some "ns") [];
             ev44_dataset (11 + 2) "event_index" None []])),
   11 + 3).
Proof.
  apply (initialize_without_name nameless_group 11). reflexivity.
Defined.

Lemma merge_with_pixel_id_witness :
  exists group',
    _merge_ev44 batch_B detector_entry 15 = (Ret tt, group', 15) /\
    field_values "event_time_zero" group' =
      Ret (VArray Float64
             ([100%Z] ++ astype Float64 (reference_time batch_B))) /\
    field_values "event_time_offset" group' =
      Ret (VArray Float64
             ([5; 6]%Z ++ astype Float64 (time_of_flight batch_B))) /\
    field_values "event_index" group' =
      Ret (VArray Float64
             ([0%Z] ++
              astype Float64
                (np_add (reference_time_index batch_B)
                   (length [5; 6]%Z)))) /\
    field_values "event_id" group' =
      Ret (VArray Float64 ([1; 2]%Z ++ astype Float64 [3%Z])).
Proof.
  apply (merge_with_pixel_id detector_entry batch_B 15
           Float64 Float64 Float64 Float64
           [100%Z] [5%Z; 6%Z] [0%Z] [1%Z; 2%Z] [3%Z]); reflexivity.
Defined.

Lemma merge_raises_after_appends_witness :
  exists group' zero' offset' index',
    _merge_ev44 monitor_batch_B monitor_entry 14 =
      (Raise KeyError, group', 14) /\
    KeyError = KeyError /\
    field_values "event_time_zero" group' = Ret (VArray Float64 zero') /\
    field_values "event_time_offset" group' = Ret (VArray Float64 offset') /\
    field_values "event_index" group' = Ret (VArray Float64 index') /\
    length zero' = length [100%Z] + length (reference_time monitor_batch_B) /\
    length offset' =
      length [5; 6]%Z + length (time_of_flight monitor_batch_B) /\
    length index' =
      length [0%Z] + length (reference_time_index monitor_batch_B) /\
    zero' = [100%Z] ++ astype Float64 (reference_time monitor_batch_B) /\
    offset' = [5; 6]%Z ++ astype Float64 (time_of_flight monitor_batch_B) /\
    index' =
      [0%Z] ++
      astype Float64
        (np_add (reference_time_index monitor_batch_B) (length [5; 6]%Z)).
Proof.
  apply (merge_raises_after_appends monitor_entry monitor_batch_B 14
           Float64 Float64 Float64 [100%Z] [5%Z; 6%Z] [0%Z] [0%Z] KeyError);
    reflexivity.
Defined.

Lemma merge_into_uninitialized_witness :
  exists e,
    _merge_ev44 batch_A new_monitor_group 11 = (Raise e, new_monitor_group, 11)
    /\ lookup_or_numpy_error e.
Proof.
  apply (merge_into_uninitialized new_monitor_group batch_A 11).
  intros t zero. discriminate.
Defined.

Lemma merge_keeps_shape_witness :
  same_shape detector_entry (_merge_ev44 batch_B detector_entry 15).1.2 /\
  (_merge_ev44 batch_B detector_entry 15).2 = 15.
Proof.
  apply (merge_keeps_shape batch_B detector_entry 15
           (_merge_ev44 batch_B detector_entry 15).1.1).
  destruct (_merge_ev44 batch_B detector_entry 15) as [[r g] k]. reflexivity.
Defined.

Lemma valid_event_index_zero (offset : list Z) :
  valid_event_index offset [0%Z].
Proof.
  split.
  - intros [|i] a Hi; simpl in Hi; [|discriminate].
    injection Hi as <-. lia.
  - intros [|i] [|j] a b _ Hi Hj; simpl in Hi, Hj; try discriminate.
    injection Hi as <-. injection Hj as <-. lia.
Defined.

Lemma merge_keeps_event_index_valid_witness :
  exists group' offset' index',
    _merge_ev44 batch_B detector_entry 15 = (Ret tt, group', 15) /\
    field_values "event_time_offset" group' = Ret (VArray Float64 offset') /\
    field_values "event_index" group' = Ret (VArray Float64 index') /\
    valid_event_index offset' index'.
Proof.
  apply (merge_keeps_event_index_valid detector_entry batch_B 15
           Float64 Float64 Float64 [100%Z] [5%Z; 6%Z] [0%Z]);
    [reflexivity | reflexivity | reflexivity
    | right; eexists _, _; reflexivity
    | apply valid_event_index_zero | apply valid_event_index_zero
    | simpl; lia].
Defined.

Lemma unmatched_paths_untouched_witness :
  (merge_message_into_data_module_store example_template "ev44" batch_A
     ∅ 10).1.2 !! monitor_path =
  (∅ : NexusGroupDictStore) !! monitor_path.
Proof.
  apply (unmatched_paths_untouched example_template "ev44" batch_A ∅
           (merge_message_into_data_module_store example_template "ev44"
              batch_A ∅ 10).1.2
           10
           (merge_message_into_data_module_store example_template "ev44"
              batch_A ∅ 10).2
           (merge_message_into_data_module_store example_template "ev44"
              batch_A ∅ 10).1.1).
  - destruct (merge_message_into_data_module_store example_template "ev44"
                batch_A ∅ 10) as [[r s] k]. reflexivity.
  - intros Hin. apply list_elem_of_In in Hin. simpl in Hin.
    destruct Hin as [Heq|[]]. discriminate.
Defined.

Lemma entries_are_kept_witness :
  is_Some
    ((merge_message_into_data_module_store example_template "ev44"
        monitor_batch_B {[ detector_path := detector_entry ]} 15).1.2
       !! detector_path).
Proof.
  apply (entries_are_kept example_template "ev44" monitor_batch_B
           {[ detector_path := detector_entry ]}
           (merge_message_into_data_module_store example_template "ev44"
              monitor_batch_B {[ detector_path := detector_entry ]} 15).1.2
           15
           (merge_message_into_data_module_store example_template "ev44"
              monitor_batch_B {[ detector_path := detector_entry ]} 15).2
           (merge_message_into_data_module_store example_template "ev44"
              monitor_batch_B {[ detector_path := detector_entry ]} 15).1.1).
  - destruct (merge_message_into_data_module_store example_template "ev44"
                monitor_batch_B {[ detector_path := detector_entry ]} 15)
      as [[r s] k]. reflexivity.
  - rewrite lookup_singleton_eq. eexists. reflexivity.
Defined.


Lemma merge_message_raises_witness :
  merge_message_into_data_module_store example_template "f144" batch_A ∅ 10 =
    (Raise NotImplementedError, ∅, 10) /\
  exists e store' n',
    merge_message_into_data_module_store crowded_template "ev44" batch_A ∅ 10
      = (Raise e, store', n') /\
    (lookup_or_numpy_error e \/ e = multiple_modules).
Proof.
  split.
  - apply (proj1 (merge_message_raises example_template "f144" batch_A ∅ 10)).
    discriminate.
  - exists multiple_modules, ∅, 10. split; [reflexivity|].
    apply (proj2 (merge_message_raises crowded_template "ev44" batch_A ∅ 10)
             eq_refl multiple_modules ∅ 10).
    reflexivity.
Defined.

Lemma combine_empty_key_raises_witness :
  combine_data_module_store_and_structure {[ [] := detector_entry ]}
    example_template tt 20 = (Raise unpack_error, tt, 21).
Proof.
  apply (combine_empty_key_raises {[ [] := detector_entry ]} example_template
           detector_entry detector_group [monitor_group] 20);
    reflexivity.
Defined.

Lemma detector_store_ancestors (names : NexusPath) :
  length names <= 1 ->
  forall q rest,
    names = q ++ rest -> rest <> [] ->
    ({[ detector_path := detector_entry ]} : NexusGroupDictStore)
      !! (q ++ [None]) = None.
Proof.
  intros Hlen q rest -> Hrest. rewrite length_app in Hlen.
  destruct rest as [|x rest]; [contradiction|]. simpl in Hlen.
  destruct q as [|y q]; [|simpl in Hlen; lia].
  reflexivity.
Defined.

Lemma detector_store_combined :
  exists result n',
    combine_data_module_store_and_structure
      {[ detector_path := detector_entry ]} example_template tt 20 =
    (Ret result, tt, n').
Proof. apply combine_single_returns. reflexivity. Defined.

Lemma combine_shares_untouched_witness :
  exists result n',
    combine_data_module_store_and_structure
      {[ detector_path := detector_entry ]} example_template tt 20 =
      (Ret result, tt, n') /\
    descend result [1] = Some monitor_group.
Proof.
  destruct detector_store_combined as (result & n' & Hrun).
  exists result, n'. split; [exact Hrun|].
  apply (combine_shares_untouched {[ detector_path := detector_entry ]}
           example_template 20 result n' [1] [Some "monitor_1"] monitor_group
           Hrun eq_refl eq_refl).
  - apply detector_store_ancestors. simpl. lia.
  - intros k. apply lookup_singleton_ne. discriminate.
Defined.

Lemma combine_places_entry_witness :
  exists result n',
    combine_data_module_store_and_structure
      {[ detector_path := detector_entry ]} example_template tt 20 =
      (Ret result, tt, n') /\
    descend result [0] = Some detector_entry.
Proof.
  destruct detector_store_combined as (result & n' & Hrun).
  exists result, n'. split; [exact Hrun|].
  apply (combine_places_entry {[ detector_path := detector_entry ]}
           example_template 20 result n' [0] [Some "detector_1"]
           detector_group detector_entry Hrun eq_refl eq_refl).
  - apply detector_store_ancestors. simpl. lia.
  - reflexivity.
Defined.

Lemma combine_rebuilds_touched_witness :
  exists result n' built,
    combine_data_module_store_and_structure
      {[ detector_path := detector_entry ]} example_template tt 20 =
      (Ret result, tt, n') /\
    descend result [] = Some built /\
    20 <= oid built < n' /\
    name built = name example_template /\
    module built = module example_template /\
    config built = config example_template /\
    attributes built = attributes example_template /\
    length <$> children built = length <$> children example_template.
Proof.
  destruct detector_store_combined as (result & n' & Hrun).
  destruct (combine_rebuilds_touched {[ detector_path := detector_entry ]}
              example_template 20 result n' [] [] example_template
              detector_path detector_entry Hrun eq_refl eq_refl)
    as (built & Hbuilt).
  - apply detector_store_ancestors. simpl. lia.
  - reflexivity.
  - reflexivity.
  - exists result, n', built. split; [exact Hrun|exact Hbuilt].
Defined.

Lemma named_store_combined :
  exists result n',
    combine_data_module_store_and_structure
      {[ named_path := detector_entry ]} named_placeholder_template tt 20 =
    (Ret result, tt, n').
Proof. vm_compute. eexists _, _. reflexivity. Defined.

Lemma combine_drops_named_entry_witness :
  exists result n' new_oid,
    combine_data_module_store_and_structure
      {[ named_path := detector_entry ]} named_placeholder_template tt 20 =
      (Ret result, tt, n') /\
    descend result [0; 0] = Some (shallow_copy new_oid named_placeholder) /\
    20 <= new_oid < n'.
Proof.
  destruct named_store_combined as (result & n' & Hrun).
  destruct (combine_drops_named_entry {[ named_path := detector_entry ]}
              named_placeholder_template 20 result n' [0; 0] named_path
              named_placeholder detector_entry Hrun eq_refl eq_refl)
    as (new_oid & Hcopy).
  - intros q rest _ _. apply lookup_singleton_ne. intros Heq.
    apply (f_equal last) in Heq. rewrite last_snoc in Heq. discriminate.
  - reflexivity.
  - reflexivity.
  - reflexivity.
  - exists result, n', new_oid. split; [exact Hrun|exact Hcopy].
Defined.

Lemma combine_raises_unpack_only_witness :
  combine_data_module_store_and_structure {[ [] := detector_entry ]}
    example_template tt 20 = (Raise unpack_error, tt, 21) /\
  unpack_error = unpack_error.
Proof.
  split; [reflexivity|].
  apply (combine_raises_unpack_only example_template
           {[ [] := detector_entry ]} 20 unpack_error 21).
  reflexivity.
Defined.

Lemma combine_returns_on_placeholder_keys_witness :
  exists result n',
    combine_data_module_store_and_structure
      {[ detector_path := detector_entry ]} example_template tt 20 =
    (Ret result, tt, n').
Proof.
  apply (combine_returns_on_placeholder_keys example_template
           {[ detector_path := detector_entry ]} 20).
  intros key group Hs. apply lookup_singleton_Some in Hs as [<- _].
  reflexivity.
Defined.

Lemma merged_message_in_snapshot_witness :
  exists store n1 result n2 group,
    merge_message_into_data_module_store example_template "ev44" batch_A ∅ 10
      = (Ret tt, store, n1) /\
    combine_data_module_store_and_structure store example_template tt n1 =
      (Ret result, tt, n2) /\
    descend result [0] = Some group /\
    store !! ([Some "detector_1"] ++ [None]) = Some group /\
    holds_batch batch_A group.
Proof.
  apply (merged_message_in_snapshot example_template batch_A
           [Some "detector_1"] [0] 10);
    [reflexivity | | reflexivity].
  exists detector_group, [placeholder 3 "bankA"].
  repeat split; [simpl; lia | eexists; reflexivity | left; reflexivity].
Defined.

Lemma set_then_get_values_witness :
  exists dataset',
    _set_values (ev44_dataset 11 "event_time_zero" (Some "ns") [])
      (VArray Float64 [1%Z]) = Ret dataset' /\
    _get_array_values dataset' = Ret (VArray Float64 [1%Z]) /\
    _node_name dataset' =
      _node_name (ev44_dataset 11 "event_time_zero" (Some "ns") []) /\
    oid dataset' = oid (ev44_dataset 11 "event_time_zero" (Some "ns") []).
Proof.
  apply (proj2 (set_then_get_values
                  (ev44_dataset 11 "event_time_zero" (Some "ns") [])
                  (VArray Float64 [1%Z]))).
  eexists. reflexivity.
Defined.

Lemma find_stops_at_first_sibling_witness :
  find_nexus_structure twin_template (_node_name detector_group :: [None]) =
  find_nexus_structure detector_group [None].
Proof.
  apply (find_stops_at_first_sibling twin_template
           [detector_group;
            mkNode 6 (Some "detector_1") (Some [placeholder 7 "bankA"])
              None None None]
           0 detector_group [None] eq_refl eq_refl).
  intros j sibling Hj. lia.
Defined.
